(** * The G-Assist visual plugin: pipe protocol, dispatch loop and framing

    A shallow embedding of [plugin.py]: the functions [generate_response],
    [describe_screen], [read_command], [write_response], [initialize],
    [shutdown] and [main], over a model of the Python values they handle
    and of the two Windows pipes they talk to.

    The Python library functions the plugin calls are modelled as follows:
    - [bytes.decode('utf-8')] and [str.encode('utf-8')]: [decode_utf8] and
      [encode_utf8], the strict codecs;
    - [json.dumps]: [json_dumps], with the default separators and
      [ensure_ascii]; the text of a finite float is left to [float_repr];
    - [json.loads]: a parameter [json_loads] of the plugin section, so that
      every result about the loop holds whatever the library decoder
      returns; [json_loads_ref] is a reference decoder used to run the
      model and on the host side of the output pipe;
    - the screenshot and the HTTP request of [describe_screen]: a parameter
      [screen_query] over an abstract [World]. *)

From Stdlib Require Import List ZArith NArith Bool Lia String Ascii.
From Stdlib.Strings Require Import Byte.
From Stdlib Require Import SpecFloat DecimalString.
Import ListNotations.

Set Warnings "-register-all".

(** ** Python values *)

(** A Python [str] is a sequence of code points. *)
Definition pystr := list N.

(** An ASCII literal of the source as a [pystr]. *)
Definition lit (s : string) : pystr :=
  map N_of_ascii (list_ascii_of_string s).

(** What [json.loads] can return, and so what the loop can receive: a
    [dict] keeps its insertion order, as Python's does. *)
Inductive pyval : Type :=
| PNone
| PBool (b : bool)
| PInt (z : Z)
| PFloat (f : spec_float)
| PStr (s : pystr)
| PList (l : list pyval)
| PDict (d : list (pystr * pyval)).

(** The exceptions that show up in the plugin. *)
Inductive exn : Type :=
| AttributeError
| TypeError
| KeyError
| ValueError
| UnicodeDecodeError
| UnicodeEncodeError
| JSONDecodeError
| RecursionError
| OtherError (name : string).

(** A computation that returns or raises. *)
Inductive res (A : Type) : Type :=
| Ok (a : A)
| Err (e : exn).
Arguments Ok {A} a.
Arguments Err {A} e.

Definition pystr_eqb (s t : pystr) : bool :=
  if list_eq_dec N.eq_dec s t then true else false.

(** [bool(v)], as [if v:] and [if not v:] compute it. *)
Definition truthy (v : pyval) : bool :=
  match v with
  | PNone => false
  | PBool b => b
  | PInt z => negb (z =? 0)%Z
  | PFloat (S754_zero _) => false
  | PFloat _ => true
  | PStr s => negb (pystr_eqb s [])
  | PList [] => false
  | PList _ => true
  | PDict [] => false
  | PDict _ => true
  end.

(** [v == "literal"]: a value equals a [str] only if it is that [str]. *)
Definition eq_str (v : pyval) (s : pystr) : bool :=
  match v with
  | PStr t => pystr_eqb t s
  | _ => false
  end.

(** Lookup in a [dict]. *)
Fixpoint dict_lookup (d : list (pystr * pyval)) (k : pystr) : option pyval :=
  match d with
  | [] => None
  | (k', v) :: d' => if pystr_eqb k' k then Some v else dict_lookup d' k
  end.

(** [d[k] = v]: an existing key keeps its place, a new one goes last. *)
Fixpoint dict_set (d : list (pystr * pyval)) (k : pystr) (v : pyval)
  : list (pystr * pyval) :=
  match d with
  | [] => [(k, v)]
  | (k', v') :: d' =>
      if pystr_eqb k' k then (k, v) :: d' else (k', v') :: dict_set d' k v
  end.

(** [obj.get(k, default)]: only a [dict] has the method among the values
    [json.loads] returns. *)
Definition py_get (obj : pyval) (k : pystr) (default : pyval) : res pyval :=
  match obj with
  | PDict d =>
      match dict_lookup d k with
      | Some v => Ok v
      | None => Ok default
      end
  | _ => Err AttributeError
  end.

(** [for x in obj]: the items the loop visits. A [dict] yields its keys, a
    [str] its characters; the other values are not iterable. *)
Definition py_iter (obj : pyval) : res (list pyval) :=
  match obj with
  | PList l => Ok l
  | PDict d => Ok (map (fun kv => PStr (fst kv)) d)
  | PStr s => Ok (map (fun c => PStr [c]) s)
  | _ => Err TypeError
  end.

(** ** UTF-8 *)

Definition in_range (lo hi c : N) : bool := ((lo <=? c) && (c <=? hi))%N.

(** [bytes.decode('utf-8')], strict: [None] stands for
    [UnicodeDecodeError]. Overlong forms, surrogates and code points above
    U+10FFFF are rejected through the ranges of the second byte. *)
Fixpoint decode_utf8 (bs : list byte) : option pystr :=
  match bs with
  | [] => Some []
  | b0 :: r0 =>
      let c0 := Byte.to_N b0 in
      if (c0 <? 0x80)%N then option_map (cons c0) (decode_utf8 r0)
      else if (c0 <? 0xC2)%N then None
      else if (c0 <? 0xE0)%N then
        match r0 with
        | b1 :: r1 =>
            let c1 := Byte.to_N b1 in
            if in_range 0x80 0xBF c1
            then option_map (cons ((c0 - 0xC0) * 64 + (c1 - 0x80))%N)
                            (decode_utf8 r1)
            else None
        | _ => None
        end
      else if (c0 <? 0xF0)%N then
        match r0 with
        | b1 :: b2 :: r2 =>
            let c1 := Byte.to_N b1 in
            let c2 := Byte.to_N b2 in
            let lo := if (c0 =? 0xE0)%N then 0xA0%N else 0x80%N in
            let hi := if (c0 =? 0xED)%N then 0x9F%N else 0xBF%N in
            if in_range lo hi c1 && in_range 0x80 0xBF c2
            then option_map
                   (cons ((c0 - 0xE0) * 4096 + (c1 - 0x80) * 64 + (c2 - 0x80))%N)
                   (decode_utf8 r2)
            else None
        | _ => None
        end
      else if (c0 <? 0xF5)%N then
        match r0 with
        | b1 :: b2 :: b3 :: r3 =>
            let c1 := Byte.to_N b1 in
            let c2 := Byte.to_N b2 in
            let c3 := Byte.to_N b3 in
            let lo := if (c0 =? 0xF0)%N then 0x90%N else 0x80%N in
            let hi := if (c0 =? 0xF4)%N then 0x8F%N else 0xBF%N in
            if in_range lo hi c1 && in_range 0x80 0xBF c2 && in_range 0x80 0xBF c3
            then option_map
                   (cons ((c0 - 0xF0) * 262144 + (c1 - 0x80) * 4096
                          + (c2 - 0x80) * 64 + (c3 - 0x80))%N)
                   (decode_utf8 r3)
            else None
        | _ => None
        end
      else None
  end.

Definition is_surrogate (c : N) : bool := in_range 0xD800 0xDFFF c.
Definition is_high_surrogate (c : N) : bool := in_range 0xD800 0xDBFF c.
Definition is_low_surrogate (c : N) : bool := in_range 0xDC00 0xDFFF c.

(** A byte from its value; values are below 256 wherever this is used. *)
Definition byte_of (n : N) : byte :=
  match Byte.of_N n with
  | Some b => b
  | None => x00
  end.

(** The UTF-8 bytes of one code point; a surrogate has none. *)
Definition encode_utf8_char (c : N) : option (list byte) :=
  if (c <? 0x80)%N then Some [byte_of c]
  else if (c <? 0x800)%N then
    Some [byte_of (0xC0 + c / 64); byte_of (0x80 + c mod 64)]
  else if (c <? 0x10000)%N then
    if is_surrogate c then None
    else Some [byte_of (0xE0 + c / 4096); byte_of (0x80 + (c / 64) mod 64);
               byte_of (0x80 + c mod 64)]
  else if (c <? 0x110000)%N then
    Some [byte_of (0xF0 + c / 262144); byte_of (0x80 + (c / 4096) mod 64);
          byte_of (0x80 + (c / 64) mod 64); byte_of (0x80 + c mod 64)]
  else None.

(** [str.encode('utf-8')], strict: [None] stands for [UnicodeEncodeError]. *)
Fixpoint encode_utf8 (s : pystr) : option (list byte) :=
  match s with
  | [] => Some []
  | c :: s' =>
      match encode_utf8_char c, encode_utf8 s' with
      | Some bs, Some rest => Some (bs ++ rest)
      | _, _ => None
      end
  end.

(** ** JSON text *)

Definition QUOTE : N := 34.
Definition BACKSLASH : N := 92.

(** The lower-case hexadecimal digit of a value below 16. *)
Definition hex_digit (n : N) : N :=
  if (n <? 10)%N then (48 + n)%N else (87 + n)%N.

(** [\uXXXX] for a code unit. *)
Definition u_escape (c : N) : pystr :=
  [BACKSLASH; 117%N;
   hex_digit ((c / 4096) mod 16); hex_digit ((c / 256) mod 16);
   hex_digit ((c / 16) mod 16); hex_digit (c mod 16)].

(** One character of a string under [ensure_ascii]: printable ASCII but
    the quote and the backslash goes out as it is, the usual short escapes
    are used, a code point above U+FFFF becomes a surrogate pair and all
    the rest a [\uXXXX]. *)
Definition escape_char (c : N) : pystr :=
  if (c =? QUOTE)%N then [BACKSLASH; QUOTE]
  else if (c =? BACKSLASH)%N then [BACKSLASH; BACKSLASH]
  else if (c =? 8)%N then [BACKSLASH; 98%N]
  else if (c =? 12)%N then [BACKSLASH; 102%N]
  else if (c =? 10)%N then [BACKSLASH; 110%N]
  else if (c =? 13)%N then [BACKSLASH; 114%N]
  else if (c =? 9)%N then [BACKSLASH; 116%N]
  else if in_range 32 126 c then [c]
  else if (0x10000 <=? c)%N then
    let v := (c - 0x10000)%N in
    u_escape (0xD800 + (v / 1024) mod 1024) ++ u_escape (0xDC00 + v mod 1024)
  else u_escape c.

(** [encode_basestring_ascii]: a string between quotes. *)
Definition encode_basestring_ascii (s : pystr) : pystr :=
  QUOTE :: flat_map escape_char s ++ [QUOTE].

(** [sep.join(items)]. *)
Fixpoint join (sep : pystr) (items : list pystr) : pystr :=
  match items with
  | [] => []
  | [x] => x
  | x :: rest => x ++ sep ++ join sep rest
  end.

(** [repr] of an [int]. *)
Definition int_repr (z : Z) : pystr :=
  lit (NilZero.string_of_int (Z.to_int z)).

(** *** A reference decoder

    The grammar and the choices of Python's [json.loads] with its default
    options: strict strings, [NaN], [Infinity] and [-Infinity] accepted, a
    repeated key keeping its first place and its last value. [None] stands
    for [JSONDecodeError]. *)

Definition is_ws (c : N) : bool :=
  ((c =? 32) || (c =? 9) || (c =? 10) || (c =? 13))%N.

Fixpoint skip_ws (s : pystr) : pystr :=
  match s with
  | c :: s' => if is_ws c then skip_ws s' else s
  | [] => []
  end.

Definition is_digit (c : N) : bool := in_range 48 57 c.

Definition hex_value (c : N) : option N :=
  if in_range 48 57 c then Some (c - 48)%N
  else if in_range 97 102 c then Some (c - 87)%N
  else if in_range 65 70 c then Some (c - 55)%N
  else None.

Definition hex4 (a b c d : N) : option N :=
  match hex_value a, hex_value b, hex_value c, hex_value d with
  | Some x, Some y, Some z, Some w => Some (((x * 16 + y) * 16 + z) * 16 + w)%N
  | _, _, _, _ => None
  end.

(** The character a backslash and [e] stand for, [\u] apart. *)
Definition unescape (e : N) : option N :=
  if (e =? QUOTE)%N then Some QUOTE
  else if (e =? BACKSLASH)%N then Some BACKSLASH
  else if (e =? 47)%N then Some 47%N
  else if (e =? 98)%N then Some 8%N
  else if (e =? 102)%N then Some 12%N
  else if (e =? 110)%N then Some 10%N
  else if (e =? 114)%N then Some 13%N
  else if (e =? 116)%N then Some 9%N
  else None.

Definition join_surrogates (hi lo : N) : N :=
  (0x10000 + (hi - 0xD800) * 1024 + (lo - 0xDC00))%N.

Definition push (c : N) (o : option (pystr * pystr)) : option (pystr * pystr) :=
  match o with
  | Some (str, rest) => Some (c :: str, rest)
  | None => None
  end.

(** The string that starts after an opening quote, and the text after its
    closing quote. A high surrogate escape directly followed by a low
    surrogate escape is one code point. *)
Fixpoint scanstring (s : pystr) : option (pystr * pystr) :=
  match s with
  | [] => None
  | c :: r =>
      if (c =? QUOTE)%N then Some ([], r)
      else if (c =? BACKSLASH)%N then
        match r with
        | [] => None
        | e :: r1 =>
            if (e =? 117)%N then
              match r1 with
              | a :: b :: c' :: d :: r2 =>
                  match hex4 a b c' d with
                  | None => None
                  | Some u =>
                      let single := push u (scanstring r2) in
                      if is_high_surrogate u then
                        match r2 with
                        | bs :: uu :: a2 :: b2 :: c2 :: d2 :: r4 =>
                            if ((bs =? BACKSLASH) && (uu =? 117))%N then
                              match hex4 a2 b2 c2 d2 with
                              | None => None
                              | Some u2 =>
                                  if is_low_surrogate u2
                                  then push (join_surrogates u u2) (scanstring r4)
                                  else single
                              end
                            else single
                        | _ => single
                        end
                      else single
                  end
              | _ => None
              end
            else
              match unescape e with
              | Some ch => push ch (scanstring r1)
              | None => None
              end
        end
      else if (c <? 32)%N then None
      else push c (scanstring r)
  end.

(** The longest run of decimal digits at the head of a text. *)
Fixpoint span_digits (s : pystr) : pystr * pystr :=
  match s with
  | c :: s' =>
      if is_digit c
      then let '(ds, rest) := span_digits s' in (c :: ds, rest)
      else ([], s)
  | [] => ([], [])
  end.

Definition digits_value (ds : pystr) : N :=
  fold_left (fun acc d => (acc * 10 + (d - 48))%N) ds 0%N.

Definition signed (neg : bool) (n : N) : Z :=
  if neg then (- Z.of_N n)%Z else Z.of_N n.

(** The binary64 float nearest to [m * 10 ^ e10], ties to even: the
    quotient is taken with two bits more than the format keeps and the
    place of the remainder is handed to the rounding of [SpecFloat]. *)
Definition decimal_to_float (neg : bool) (m : N) (e10 : Z) : spec_float :=
  if (m =? 0)%N then S754_zero neg
  else
    let num := (Z.of_N m * (if 0 <=? e10 then 10 ^ e10 else 1))%Z in
    let den := (if e10 <? 0 then 10 ^ (- e10) else 1)%Z in
    let ex := Z.max (Zdigits2 num - Zdigits2 den - 55) (emin 53 1024) in
    let n' := (if 0 <=? ex then num else num * 2 ^ (- ex))%Z in
    let d' := (if 0 <=? ex then den * 2 ^ ex else den)%Z in
    let r := (n' mod d')%Z in
    let loc := if (r =? 0)%Z then loc_Exact
               else loc_Inexact (Z.compare (2 * r) d') in
    binary_round_aux 53 1024 neg (n' / d')%Z ex loc.

(** The sign of a number or of an exponent, and the text after it. *)
Definition take_sign (plus : bool) (s : pystr) : bool * pystr :=
  match s with
  | c :: r =>
      if (c =? 45)%N then (true, r)
      else if plus && (c =? 43)%N then (false, r)
      else (false, s)
  | [] => (false, s)
  end.

(** A number: an integer text is an [int], a text with a fraction or an
    exponent a [float]. A dot needs a digit after it and an exponent its
    digits, or the number ends before them. *)
Definition match_number (s : pystr) : option (pyval * pystr) :=
  let '(neg, s1) := take_sign false s in
  match s1 with
  | [] => None
  | c :: r =>
      let intpart :=
        if in_range 49 57 c
        then let '(ds, r') := span_digits r in Some (c :: ds, r')
        else if (c =? 48)%N then Some ([c], r)
        else None in
      match intpart with
      | None => None
      | Some (ids, r1) =>
          let '(fds, r2) :=
            match r1 with
            | dot :: d :: r' =>
                if (dot =? 46)%N && is_digit d
                then let '(ds, rest) := span_digits r' in (Some (d :: ds), rest)
                else (None, r1)
            | _ => (None, r1)
            end in
          let '(exp, r3) :=
            match r2 with
            | e :: r' =>
                if ((e =? 101) || (e =? 69))%N then
                  let '(eneg, r5) := take_sign true r' in
                  let '(eds, r4) := span_digits r5 in
                  match eds with
                  | [] => (None, r2)
                  | _ => (Some (signed eneg (digits_value eds)), r4)
                  end
                else (None, r2)
            | [] => (None, r2)
            end in
          match fds, exp with
          | None, None => Some (PInt (signed neg (digits_value ids)), r3)
          | _, _ =>
              let fr := match fds with Some ds => ds | None => [] end in
              let e10 := match exp with Some e => e | None => 0%Z end in
              Some (PFloat (decimal_to_float neg (digits_value (ids ++ fr))
                              (e10 - Z.of_nat (List.length fr))), r3)
          end
      end
  end.

(** [s] without the prefix [p], if it starts with it. *)
Fixpoint strip_prefix (p s : pystr) : option pystr :=
  match p, s with
  | [], _ => Some s
  | a :: p', b :: s' => if (a =? b)%N then strip_prefix p' s' else None
  | _ :: _, [] => None
  end.

(** One JSON value at the head of a text, and the text after it. The
    fuel bounds the chain of calls into nested values: a level of nesting
    takes two units at most and, in a well-formed text, has its opening
    and its closing character, so the length of the text is enough. *)
Fixpoint scan_once (fuel : nat) (s : pystr) : option (pyval * pystr) :=
  match fuel with
  | O => None
  | S fuel' =>
      match s with
      | [] => None
      | c :: r =>
          if (c =? QUOTE)%N then
            match scanstring r with
            | Some (str, r') => Some (PStr str, r')
            | None => None
            end
          else if (c =? 123)%N then
            match skip_ws r with
            | c' :: r' =>
                if (c' =? 125)%N then Some (PDict [], r')
                else parse_members fuel' [] (c' :: r')
            | [] => None
            end
          else if (c =? 91)%N then
            match skip_ws r with
            | c' :: r' =>
                if (c' =? 93)%N then Some (PList [], r')
                else parse_elements fuel' [] (c' :: r')
            | [] => None
            end
          else
            match strip_prefix (lit "null") s with
            | Some r' => Some (PNone, r')
            | None =>
            match strip_prefix (lit "true") s with
            | Some r' => Some (PBool true, r')
            | None =>
            match strip_prefix (lit "false") s with
            | Some r' => Some (PBool false, r')
            | None =>
            match strip_prefix (lit "NaN") s with
            | Some r' => Some (PFloat S754_nan, r')
            | None =>
            match strip_prefix (lit "Infinity") s with
            | Some r' => Some (PFloat (S754_infinity false), r')
            | None =>
            match strip_prefix (lit "-Infinity") s with
            | Some r' => Some (PFloat (S754_infinity true), r')
            | None => match_number s
            end end end end end end
      end
  end

(** The members of an object from its first key on, up to the closing
    brace; [acc] holds the members read so far. *)
with parse_members (fuel : nat) (acc : list (pystr * pyval)) (s : pystr)
  : option (pyval * pystr) :=
  match fuel with
  | O => None
  | S fuel' =>
      match s with
      | q :: r =>
          if (q =? QUOTE)%N then
            match scanstring r with
            | Some (key, r1) =>
                match skip_ws r1 with
                | colon :: r2 =>
                    if (colon =? 58)%N then
                      match scan_once fuel' (skip_ws r2) with
                      | Some (val, r3) =>
                          let acc' := dict_set acc key val in
                          match skip_ws r3 with
                          | c :: r4 =>
                              if (c =? 125)%N then Some (PDict acc', r4)
                              else if (c =? 44)%N
                              then parse_members fuel' acc' (skip_ws r4)
                              else None
                          | [] => None
                          end
                      | None => None
                      end
                    else None
                | [] => None
                end
            | None => None
            end
          else None
      | [] => None
      end
  end

(** The elements of an array from its first value on, up to the closing
    bracket. *)
with parse_elements (fuel : nat) (acc : list pyval) (s : pystr)
  : option (pyval * pystr) :=
  match fuel with
  | O => None
  | S fuel' =>
      match scan_once fuel' s with
      | Some (val, r1) =>
          let acc' := acc ++ [val] in
          match skip_ws r1 with
          | c :: r2 =>
              if (c =? 93)%N then Some (PList acc', r2)
              else if (c =? 44)%N
              then parse_elements fuel' acc' (skip_ws r2)
              else None
          | [] => None
          end
      | None => None
      end
  end.

(** The decoding of a whole text: one value between optional whitespace,
    and nothing after it. *)
Definition json_loads_ref (s : pystr) : res pyval :=
  match scan_once (S (List.length s)) (skip_ws s) with
  | Some (v, rest) =>
      match skip_ws rest with
      | [] => Ok v
      | _ :: _ => Err JSONDecodeError
      end
  | None => Err JSONDecodeError
  end.

(** ** Outside the plugin *)

(** What the part of [describe_screen] inside its [try] comes to: the
    screenshot, the request and the lookup of ['output'] either give the
    text [f"{res}"], or raise [requests.RequestException], or raise
    something else. *)
Inductive query_result : Type :=
| Output (text : pystr)
| RequestException
| QueryRaises (e : exn).

(** A world of a single state in which every query of the screen gets
    the same text, and a text for floats: they fill the parameters of the
    plugin in the runs of the model, none of which encodes a float. *)
Definition fixed_screen_query (prompt : pyval) (w : unit)
  : query_result * unit :=
  (Output (lit "a cat"), w).

(** A service whose reply has no [output] key: the lookup in
    [describe_screen] raises [KeyError]. *)
Definition failing_screen_query (prompt : pyval) (w : unit)
  : query_result * unit :=
  (QueryRaises KeyError, w).

Definition fixed_float_repr (f : spec_float) : pystr := lit "0.0".

Section Plugin.

(** [float.__repr__] on finite floats, the shortest decimal text that
    reads back as the same float; no response of the plugin holds one. *)
Variable float_repr : spec_float -> pystr.

Definition float_text (f : spec_float) : pystr :=
  match f with
  | S754_nan => lit "NaN"
  | S754_infinity false => lit "Infinity"
  | S754_infinity true => lit "-Infinity"
  | _ => float_repr f
  end.

(** [json.dumps(v, separators=(item_separator, key_separator))] with the
    other options at their defaults. *)
Fixpoint json_dumps_with (item_separator key_separator : pystr) (v : pyval)
  : pystr :=
  match v with
  | PNone => lit "null"
  | PBool true => lit "true"
  | PBool false => lit "false"
  | PInt z => int_repr z
  | PFloat f => float_text f
  | PStr s => encode_basestring_ascii s
  | PList l =>
      lit "[" ++ join item_separator
                   (map (json_dumps_with item_separator key_separator) l)
              ++ lit "]"
  | PDict d =>
      lit "{" ++ join item_separator
                   (map (fun kv =>
                           match kv with
                           | (k, x) =>
                               encode_basestring_ascii k ++ key_separator
                                 ++ json_dumps_with item_separator key_separator x
                           end) d)
              ++ lit "}"
  end.

(** [json.dumps(v)], as [write_response] calls it: the default separators
    are [', '] and [': ']. *)
Definition json_dumps : pyval -> pystr :=
  json_dumps_with (lit ", ") (lit ": ").

(** The compact serialization, without any whitespace: what
    [json.dumps(v, separators=(',', ':'))] gives. *)
Definition json_dumps_compact : pyval -> pystr :=
  json_dumps_with (lit ",") (lit ":").

(** ** The pipes, the log and the outside world *)

(** What one call of [ReadFile] on the input pipe comes back with: a
    failure, or the bytes it put at the head of the buffer, [BUFFER_SIZE]
    of them at most. The pipe is the list of the calls still to be
    answered; when it is empty [ReadFile] waits for the host. *)
Inductive read_event : Type :=
| ReadFails
| ReadGives (data : list byte).

Definition BUFFER_SIZE : nat := 4096.

(** [buffer = bytes(BUFFER_SIZE)] and [ReadFile(pipe, buffer, BUFFER_SIZE,
    byref(message_bytes), None)]: the result, the buffer after the call
    (the data over the zero bytes) and [message_bytes.value]. *)
Definition ReadFile (ev : read_event) : bool * list byte * nat :=
  match ev with
  | ReadFails => (false, repeat x00 BUFFER_SIZE, 0)
  | ReadGives data =>
      (true, data ++ repeat x00 (BUFFER_SIZE - List.length data),
       List.length data)
  end.

Inductive level : Type := INFO | ERROR.

(** A log record: its level, its text and, for [f'...{e}'] and
    [logging.exception], the exception it reports. *)
Record log_record : Type := mkLog {
  log_level : level;
  log_text : pystr;
  log_exn : option exn
}.

Context {World : Type}.
Variable screen_query : pyval -> World -> query_result * World.

(** [json.loads]. *)
Variable json_loads : pystr -> res pyval.

Record state : Type := mkState {
  pipe_in : list read_event;
  pipe_out : list (list byte);
  log_file : list log_record;
  world : World
}.

Definition logging (lv : level) (text : pystr) (e : option exn) (st : state)
  : state :=
  mkState (pipe_in st) (pipe_out st)
          (log_file st ++ [mkLog lv text e]) (world st).

Definition set_pipe_in (p : list read_event) (st : state) : state :=
  mkState p (pipe_out st) (log_file st) (world st).

Definition set_world (w : World) (st : state) : state :=
  mkState (pipe_in st) (pipe_out st) (log_file st) w.

(** [WriteFile(pipe, message_bytes, len(message_bytes), ...)]: the frame
    is handed to the output pipe, which records every such call; the
    result of the call is not looked at. *)
Definition WriteFile (message_bytes : list byte) (st : state) : state :=
  mkState (pipe_in st) (pipe_out st ++ [message_bytes]) (log_file st)
          (world st).

(** ** The functions of the plugin *)

(** [generate_response(success, message)]: the [message] key is set only
    for a message that is true, so neither for [None] nor for [""]. *)
Definition generate_response (success : bool) (message : pyval) : pyval :=
  let response := [(lit "success", PBool success)] in
  if truthy message
  then PDict (dict_set response (lit "message") message)
  else PDict response.

(** [describe_screen(params)]: the lookup of the prompt and its test are
    before the [try]; of what the [try] raises only
    [requests.RequestException] is caught. *)
Definition describe_screen (params : pyval) (w : World) : res pyval * World :=
  match py_get params (lit "prompt") PNone with
  | Err e => (Err e, w)
  | Ok prompt =>
      if negb (truthy prompt)
      then (Ok (generate_response false
                  (PStr (lit "Missing required parameter: prompt"))), w)
      else
        match screen_query prompt w with
        | (Output text, w') => (Ok (generate_response true (PStr text)), w')
        | (RequestException, w') =>
            (Ok (generate_response false
                   (PStr (lit "Failed to check Screen Description"))), w')
        | (QueryRaises e, w') => (Err e, w')
        end
  end.

(** How the [while True] of [read_command] ends. *)
Inductive read_exit : Type :=
| Break (chunks : list pystr)
| ReturnNone
| DecodeRaises
| Waits.

(** The [while True] of [read_command], one [ReadFile] per turn. *)
Fixpoint read_chunks (pipe : list read_event) (chunks : list pystr)
  : read_exit * list read_event :=
  match pipe with
  | [] => (Waits, [])
  | ev :: pipe' =>
      let '(success, buffer, message_bytes) := ReadFile ev in
      if negb success then (ReturnNone, pipe')
      else
        match decode_utf8 buffer with
        | None => (DecodeRaises, pipe')
        | Some text =>
            let chunk := firstn message_bytes text in
            let chunks := chunks ++ [chunk] in
            if message_bytes <? BUFFER_SIZE
            then (Break chunks, pipe')
            else read_chunks pipe' chunks
        end
  end.

(** [read_command]: the value it returns and the state after it, or
    [None] when it never returns because [ReadFile] waits. *)
Definition read_command (st : state) : option (pyval * state) :=
  match read_chunks (pipe_in st) [] with
  | (Waits, _) => None
  | (ReturnNone, pipe) =>
      Some (PNone,
            logging ERROR (lit "Error reading from command pipe") None
              (set_pipe_in pipe st))
  | (DecodeRaises, pipe) =>
      Some (PNone,
            logging ERROR (lit "Exception in read_command(): ")
              (Some UnicodeDecodeError) (set_pipe_in pipe st))
  | (Break chunks, pipe) =>
      let retval := List.concat chunks in
      let st := logging INFO (lit "Raw Input: " ++ retval) None
                  (set_pipe_in pipe st) in
      match json_loads retval with
      | Ok command => Some (command, st)
      | Err JSONDecodeError =>
          Some (PNone,
                logging ERROR (lit "JSON decoding failed:") (Some JSONDecodeError)
                  (logging ERROR (lit "Received invalid JSON: " ++ retval) None st))
      | Err e =>
          Some (PNone,
                logging ERROR (lit "Exception in read_command(): ") (Some e) st)
      end
  end.

Definition END_MARKER : pystr := lit "<<END>>".

(** [write_response(response)]: what the [try] raises is logged and goes
    no further. *)
Definition write_response (response : pyval) (st : state) : state :=
  let json_message := json_dumps response ++ END_MARKER in
  match encode_utf8 json_message with
  | Some message_bytes => WriteFile message_bytes st
  | None =>
      logging ERROR (lit "Error writing response: ") (Some UnicodeEncodeError) st
  end.

(** [initialize()] and [shutdown()]: a log record and a fixed response. *)
Definition initialize (st : state) : pyval * state :=
  (generate_response true (PStr (lit "Plugin initialized successfully")),
   logging INFO (lit "Initializing plugin") None st).

Definition shutdown (st : state) : pyval * state :=
  (generate_response true (PStr (lit "Plugin shutdown successfully")),
   logging INFO (lit "Shutting down plugin") None st).

(** How one turn of the [for] loop of [main] ends: the loop goes on,
    [main] returns, or an exception leaves [main]. *)
Inductive flow : Type :=
| Continue (st : state)
| Return (st : state)
| Raise (e : exn) (st : state).

(** The body of [for tool_call in tool_calls]. *)
Definition for_body (tool_call : pyval) (st : state) : flow :=
  match py_get tool_call (lit "func") PNone with
  | Err e => Raise e st
  | Ok func =>
      match py_get tool_call (lit "params") (PDict []) with
      | Err e => Raise e st
      | Ok params =>
          if eq_str func (lit "initialize") then
            let '(response, st) := initialize st in
            Continue (write_response response st)
          else if eq_str func (lit "describe_screen") then
            match describe_screen params (world st) with
            | (Ok response, w) =>
                Continue (write_response response (set_world w st))
            | (Err e, w) => Raise e (set_world w st)
            end
          else if eq_str func (lit "shutdown") then
            let '(response, st) := shutdown st in
            Return (write_response response st)
          else
            let response :=
              generate_response false (PStr (lit "Unknown function call")) in
            Continue (write_response response st)
      end
  end.

Fixpoint for_tool_calls (tool_calls : list pyval) (st : state) : flow :=
  match tool_calls with
  | [] => Continue st
  | tool_call :: rest =>
      match for_body tool_call st with
      | Continue st' => for_tool_calls rest st'
      | Return st' => Return st'
      | Raise e st' => Raise e st'
      end
  end.

(** How [main] ends: it returns after a shutdown (the process stops), an
    exception leaves it (the process dies), it waits in [ReadFile] for a
    command that has not come (the loop is running), or the fuel of the
    model is used up. *)
Inductive main_exit : Type :=
| STOPPED
| CRASHED (e : exn)
| RUNNING
| OutOfFuel.

(** The [while True] of [main], one command per unit of fuel. *)
Fixpoint main_loop (fuel : nat) (st : state) : main_exit * state :=
  match fuel with
  | O => (OutOfFuel, st)
  | S fuel' =>
      match read_command st with
      | None => (RUNNING, set_pipe_in [] st)
      | Some (PNone, st) =>
          main_loop fuel' (logging ERROR (lit "Error reading command") None st)
      | Some (command, st) =>
          match py_get command (lit "tool_calls") (PList []) with
          | Err e => (CRASHED e, st)
          | Ok tool_calls =>
              match py_iter tool_calls with
              | Err e => (CRASHED e, st)
              | Ok items =>
                  match for_tool_calls items st with
                  | Continue st => main_loop fuel' st
                  | Return st => (STOPPED, st)
                  | Raise e st => (CRASHED e, st)
                  end
              end
          end
      end
  end.

(** [main]: every turn of the loop takes a [ReadFile] from the pipe, so
    one unit of fuel per pending [ReadFile] and one more are enough. *)
Definition main (st : state) : main_exit * state :=
  main_loop (S (List.length (pipe_in st)))
            (logging INFO (lit "Visual Plugin Started") None st).

(** One turn of the [while] loop of [main] on the command just read:
    [main_loop] after its call of [read_command]. *)
Definition serve (fuel : nat) (command : pyval) (st : state)
  : main_exit * state :=
  match command with
  | PNone =>
      main_loop fuel (logging ERROR (lit "Error reading command") None st)
  | _ =>
      match py_get command (lit "tool_calls") (PList []) with
      | Err e => (CRASHED e, st)
      | Ok tool_calls =>
          match py_iter tool_calls with
          | Err e => (CRASHED e, st)
          | Ok items =>
              match for_tool_calls items st with
              | Continue st' => main_loop fuel st'
              | Return st' => (STOPPED, st')
              | Raise e st' => (CRASHED e, st')
              end
          end
      end
  end.

(** ** The words of the specification *)

(** An ASCII literal in which the apostrophe stands for the double quote. *)
Definition dq (s : string) : pystr :=
  map (fun c => if (c =? 39)%N then QUOTE else c) (lit s).

(** The bytes of an ASCII text. *)
Definition ascii_bytes (s : pystr) : list byte := map byte_of s.

Definition is_ascii (s : pystr) : bool := forallb (fun c => (c <? 128)%N) s.

Definition bytes_ascii (bs : list byte) : bool :=
  forallb (fun b => (Byte.to_N b <? 128)%N) bs.

(** A Result of the data model: [success], and [message] when there is
    something to report. *)
Definition Result (success : bool) (message : option pystr) : pyval :=
  PDict ((lit "success", PBool success)
           :: match message with
              | Some m => [(lit "message", PStr m)]
              | None => []
              end).

(** The three Results the loop itself produces. *)
Definition unknown_result : pyval :=
  Result false (Some (lit "Unknown function call")).
Definition initialized_result : pyval :=
  Result true (Some (lit "Plugin initialized successfully")).
Definition shutdown_result : pyval :=
  Result true (Some (lit "Plugin shutdown successfully")).

(** The frame of a Result on the output pipe: its JSON text as
    [write_response] builds it, then the terminator. *)
Definition frame (result : pyval) : list byte :=
  ascii_bytes (json_dumps result ++ END_MARKER).

(** The compact frame the specification describes. *)
Definition compact_frame (result : pyval) : list byte :=
  ascii_bytes (json_dumps_compact result ++ END_MARKER).

(** Whether a text starts with a pattern, and whether the pattern occurs
    somewhere in it. *)
Definition starts_with (p s : pystr) : bool :=
  match strip_prefix p s with
  | Some _ => true
  | None => false
  end.

Fixpoint occurs (p s : pystr) : bool :=
  starts_with p s
  || match s with
     | [] => false
     | _ :: s' => occurs p s'
     end.

(** Modelled from the spec: the host side of the output pipe, which the
    repository does not hold. The reader finds the end of a response by
    the marker: the payload is the text before the first [<<END>>] it
    meets, and a text without the marker is no frame. *)
Fixpoint strip_terminator (text : pystr) : option pystr :=
  match text with
  | [] => None
  | c :: rest =>
      if starts_with END_MARKER text then Some []
      else option_map (cons c) (strip_terminator rest)
  end.

(** Modelled from the spec: the decoding of a Result frame, which the
    repository leaves to the host; the bytes are read as UTF-8, the text
    before the first [<<END>>] is the payload, and the payload is parsed as
    JSON. *)
Definition decode_frame (bytes : list byte) : option pyval :=
  match decode_utf8 bytes with
  | None => None
  | Some text =>
      match strip_terminator text with
      | None => None
      | Some payload =>
          match json_loads_ref payload with
          | Ok v => Some v
          | Err _ => None
          end
      end
  end.

(** A text that survives JSON escaping and parsing: its code points are
    Unicode code points, and no high surrogate stands directly before a
    low surrogate (the two escapes would be read as one code point). *)
Fixpoint text_ok (s : pystr) : bool :=
  match s with
  | [] => true
  | c :: rest =>
      (c <? 0x110000)%N
      && negb (is_high_surrogate c
               && match rest with
                  | c' :: _ => is_low_surrogate c'
                  | [] => false
                  end)
      && text_ok rest
  end.

(** A text without the character [<], with which the terminator starts. *)
Definition no_angle (s : pystr) : bool :=
  forallb (fun c => negb (c =? 60)%N) s.

(** A message a frame carries to the host unharmed: it survives the JSON
    escaping, and the terminator does not occur in it, so that the first
    [<<END>>] of the frame is the one that ends it. *)
Definition message_ok (m : pystr) : bool :=
  text_ok m && negb (occurs END_MARKER m).

(** Whether a text starts with the escape of a low surrogate, which
    [scanstring] would join to a high surrogate read just before it. *)
Definition low_escape_ahead (s : pystr) : bool :=
  match s with
  | bs :: uu :: a :: b :: c :: d :: _ =>
      ((bs =? BACKSLASH) && (uu =? 117))%N
      && match hex4 a b c d with
         | Some u => is_low_surrogate u
         | None => true
         end
  | _ => false
  end.

(** [tool_call.get("func")] and [tool_call.get("params", {})] on a map. *)
Definition func_of (d : list (pystr * pyval)) : pyval :=
  match dict_lookup d (lit "func") with
  | Some v => v
  | None => PNone
  end.

Definition params_of (d : list (pystr * pyval)) : pyval :=
  match dict_lookup d (lit "params") with
  | Some v => v
  | None => PDict []
  end.

(** An invocation of a valid Command: a map whose parameters, when it has
    any, are a map. *)
Definition is_invocation (tool_call : pyval) : bool :=
  match tool_call with
  | PDict d =>
      match params_of d with
      | PDict _ => true
      | _ => false
      end
  | _ => false
  end.

Definition is_shutdown (tool_call : pyval) : bool :=
  match tool_call with
  | PDict d => eq_str (func_of d) (lit "shutdown")
  | _ => false
  end.

(** The Command Router: the Result of one invocation. The reserved names
    have fixed Results, a registered name is answered by its handler and
    any other name by the routing error. *)
Definition dispatch (invocation : pyval) (w : World) : res pyval * World :=
  match invocation with
  | PDict d =>
      if eq_str (func_of d) (lit "initialize") then
        (Ok initialized_result, w)
      else if eq_str (func_of d) (lit "shutdown") then
        (Ok shutdown_result, w)
      else if eq_str (func_of d) (lit "describe_screen") then
        describe_screen (params_of d) w
      else (Ok unknown_result, w)
  | _ => (Err AttributeError, w)
  end.

(** The invocations of a Command that are processed: all of them, or
    those up to the first shutdown signal, which is the last. *)
Fixpoint processed (invocations : list pyval) : list pyval :=
  match invocations with
  | [] => []
  | i :: rest => if is_shutdown i then [i] else i :: processed rest
  end.

(** The Results of a list of invocations, in their order. *)
Fixpoint results (invocations : list pyval) (w : World) : list pyval :=
  match invocations with
  | [] => []
  | i :: rest =>
      match dispatch i w with
      | (Ok r, w') => r :: results rest w'
      | (Err _, _) => []
      end
  end.

(** ** The configuration file *)

(** ['\n' + indent * level], the line break [json.dump] writes before an
    item when it is given an [indent]. *)
Definition newline_indent (indent level : nat) : pystr :=
  10%N :: repeat 32%N (indent * level).

(** [json.dumps(v, indent=indent)] at a nesting level: with an indent the
    item separator is [','] followed by the line break, the key separator
    stays [': '], and an empty list or map is written without a break. *)
Fixpoint json_dumps_indent (indent level : nat) (v : pyval) : pystr :=
  match v with
  | PNone => lit "null"
  | PBool true => lit "true"
  | PBool false => lit "false"
  | PInt z => int_repr z
  | PFloat f => float_text f
  | PStr s => encode_basestring_ascii s
  | PList l =>
      match l with
      | [] => lit "[]"
      | _ :: _ =>
          lit "[" ++ newline_indent indent (S level)
            ++ join (lit "," ++ newline_indent indent (S level))
                 (map (json_dumps_indent indent (S level)) l)
            ++ newline_indent indent level ++ lit "]"
      end
  | PDict d =>
      match d with
      | [] => lit "{}"
      | _ :: _ =>
          lit "{" ++ newline_indent indent (S level)
            ++ join (lit "," ++ newline_indent indent (S level))
                 (map (fun kv =>
                         match kv with
                         | (k, x) =>
                             encode_basestring_ascii k ++ lit ": "
                               ++ json_dumps_indent indent (S level) x
                         end) d)
            ++ newline_indent indent level ++ lit "}"
      end
  end.

(** The text of one member of a map in [json_dumps_indent]. *)
Definition member_text (indent level : nat) (kv : pystr * pyval) : pystr :=
  match kv with
  | (k, x) =>
      encode_basestring_ascii k ++ lit ": " ++ json_dumps_indent indent level x
  end.

(** The file at [CONFIG_FILE] as the plugin finds it: [os.path.exists]
    says no, or [open] and [read] raise, or they give its text. *)
Inductive config_file : Type :=
| NoFile
| Unreadable (e : exn)
| FileText (text : pystr).

(** The disk: the configuration file, and whether [open(CONFIG_FILE, "w")]
    goes through. *)
Record disk : Type := mkDisk {
  file : config_file;
  writable : bool
}.

(** [load_config()]: what [json.load] gives for the file, of whatever
    type; the empty map when there is no file or when anything raises,
    which is logged. *)
Definition load_config (d : disk) (st : state) : pyval * state :=
  match file d with
  | NoFile => (PDict [], st)
  | Unreadable e =>
      (PDict [], logging ERROR (lit "Error loading config: ") (Some e) st)
  | FileText text =>
      match json_loads text with
      | Ok v => (v, st)
      | Err e =>
          (PDict [], logging ERROR (lit "Error loading config: ") (Some e) st)
      end
  end.

(** [save_config(config_data)]: the file is replaced by the indented JSON
    text of the data; when it cannot be opened the failure is logged and
    the disk stays as it was. *)
Definition save_config (config_data : pyval) (d : disk) (st : state)
  : disk * state :=
  if writable d
  then (mkDisk (FileText (json_dumps_indent 4 0 config_data)) (writable d), st)
  else (d, logging ERROR (lit "Error saving config: ")
             (Some (OtherError "OSError")) st).

(** ** Shapes of texts and frames *)

(** Printable ASCII, and printable ASCII that JSON leaves as it is. *)
Definition is_printable (s : pystr) : bool := forallb (in_range 32 126) s.

Definition is_plain (s : pystr) : bool :=
  forallb (fun c => in_range 32 126 c
                    && negb (c =? QUOTE)%N && negb (c =? BACKSLASH)%N) s.

(** The bytes a character takes by its lead byte, 0 for a byte that opens
    no character. *)
Definition char_bytes (lead : byte) : nat :=
  let c := Byte.to_N lead in
  if (c <? 0x80)%N then 1
  else if (c <? 0xC2)%N then 0
  else if (c <? 0xE0)%N then 2
  else if (c <? 0xF0)%N then 3
  else if (c <? 0xF5)%N then 4
  else 0.

(** A multi-byte character cut short: its lead byte and fewer bytes than
    the character takes. *)
Definition is_cut (bytes : list byte) : bool :=
  match bytes with
  | [] => false
  | lead :: _ =>
      (0xC2 <=? Byte.to_N lead)%N && (List.length bytes <? char_bytes lead)
  end.

(** The frame of some Result whose message, if it has one, is not empty. *)
Definition result_frame (bytes : list byte) : Prop :=
  exists success message,
    message <> Some [] /\ bytes = frame (Result success message).

(** The state a turn of the [for] loop ends in. *)
Definition flow_state (f : flow) : state :=
  match f with
  | Continue st | Return st | Raise _ st => st
  end.

(** A configuration as [save_config] expects it, a map from strings to
    strings: no key twice, and keys and values that survive escaping. *)
Fixpoint config_ok (d : list (pystr * pyval)) : bool :=
  match d with
  | [] => true
  | (k, v) :: d' =>
      text_ok k
      && match v with PStr s => text_ok s | _ => false end
      && negb (existsb (fun kv => pystr_eqb (fst kv) k) d')
      && config_ok d'
  end.

(** ** Inputs of the runs *)

(** A command of two invocations, as it comes on the pipe and decoded. *)
Definition two_calls_text : pystr :=
  dq "{'tool_calls':[{'func':'initialize','params':{}},{'func':'bogus'}]}".

Definition two_calls : list pyval :=
  [PDict [(lit "func", PStr (lit "initialize")); (lit "params", PDict [])];
   PDict [(lit "func", PStr (lit "bogus"))]].

(** Tool-call entries: an unknown name, no name, a screen request without
    parameters. *)
Definition bogus_call : list (pystr * pyval) :=
  [(lit "func", PStr (lit "bogus")); (lit "params", PDict [])].

Definition nameless_call : list (pystr * pyval) := [(lit "params", PDict [])].

Definition screen_call : list (pystr * pyval) :=
  [(lit "func", PStr (lit "describe_screen"))].

(** The ten bytes of a JSON message with the two-byte character U+00E9,
    and its text of nine characters. *)
Definition accent_bytes : list byte :=
  ascii_bytes (dq "{'a':'") ++ [xc3; xa9] ++ ascii_bytes (dq "'}").

Definition accent_text : pystr := dq "{'a':'" ++ [233%N] ++ dq "'}".

(** A text with an accent and a code point above U+FFFF, and the text of
    the two halves of that code point. *)
Definition emoji_text : pystr := lit "caf" ++ [233; 32; 128512]%N.

Definition split_pair : pystr := [55357; 56832]%N.

(** A message that holds the terminator. *)
Definition marker_text : pystr := lit "a<<END>>b".

(** A valid command of one invocation that asks for the screen, as it
    comes on the pipe, and its invocation; the shutdown signal. *)
Definition prompt_call : list (pystr * pyval) :=
  [(lit "func", PStr (lit "describe_screen"));
   (lit "params", PDict [(lit "prompt", PStr (lit "hi"))])].

Definition prompt_call_text : pystr :=
  dq "{'tool_calls':[{'func':'describe_screen','params':{'prompt':'hi'}}]}".

Definition shutdown_call : list (pystr * pyval) :=
  [(lit "func", PStr (lit "shutdown")); (lit "params", PDict [])].

(** An entry that asks for the screen with an empty prompt. *)
Definition empty_prompt_params : list (pystr * pyval) :=
  [(lit "prompt", PStr [])].

Definition empty_prompt_call : list (pystr * pyval) :=
  [(lit "func", PStr (lit "describe_screen"));
   (lit "params", PDict empty_prompt_params)].

(** A command without invocations padded with spaces to one full buffer. *)
Definition full_buffer_bytes : list byte :=
  ascii_bytes (dq "{'tool_calls':[]}" ++ repeat 32%N 4079).

(** A configuration with the key of the service. *)
Definition key_config : list (pystr * pyval) :=
  [(lit "REPLICATE_KEY", PStr (lit "r8_key")); (lit "note", PStr emoji_text)].

(** * Properties *)

(** ** Strings and comparisons *)

Lemma pystr_eqb_eq (s t : pystr) : pystr_eqb s t = true <-> s = t.
Proof.
  unfold pystr_eqb. destruct (list_eq_dec N.eq_dec s t); split; congruence.
Qed.

Lemma pystr_eqb_refl (s : pystr) : pystr_eqb s s = true.
Proof. now apply pystr_eqb_eq. Qed.

Lemma eq_str_true (v : pyval) (s : pystr) : eq_str v s = true <-> v = PStr s.
Proof.
  destruct v; simpl; try (split; congruence).
  rewrite pystr_eqb_eq. split; congruence.
Qed.

Lemma eq_str_false (v : pyval) (s : pystr) : v <> PStr s -> eq_str v s = false.
Proof.
  intros H. destruct (eq_str v s) eqn:E; [|reflexivity].
  apply eq_str_true in E. contradiction.
Qed.

(** ** The bytes [write_response] hands to the pipe *)

Lemma byte_of_to_N (b : byte) : byte_of (Byte.to_N b) = b.
Proof. unfold byte_of. now rewrite Byte.of_to_N. Qed.

Lemma encode_utf8_ascii (s : pystr) :
  is_ascii s = true -> encode_utf8 s = Some (ascii_bytes s).
Proof.
  induction s as [|c s IH]; simpl; [reflexivity|].
  intros H. apply andb_true_iff in H as [Hc Hs].
  unfold encode_utf8_char. rewrite Hc, (IH Hs). reflexivity.
Qed.

Lemma is_ascii_app (s t : pystr) :
  is_ascii (s ++ t) = is_ascii s && is_ascii t.
Proof. apply forallb_app. Qed.

Lemma hex_digit_ascii (n : N) : (n < 16)%N -> (hex_digit n <? 128)%N = true.
Proof.
  intros H. unfold hex_digit. apply N.ltb_lt.
  destruct (n <? 10)%N; lia.
Qed.

Lemma u_escape_ascii (c : N) : is_ascii (u_escape c) = true.
Proof.
  unfold u_escape, is_ascii, forallb.
  rewrite !hex_digit_ascii by (apply N.mod_lt; discriminate).
  reflexivity.
Qed.

Lemma escape_char_ascii (c : N) : is_ascii (escape_char c) = true.
Proof.
  unfold escape_char.
  repeat match goal with
         | |- context [if ?b then _ else _] => destruct b eqn:?
         end;
    try reflexivity;
    try (rewrite is_ascii_app, !u_escape_ascii; reflexivity);
    try apply u_escape_ascii.
  match goal with
  | H : in_range _ _ _ = true |- _ =>
      unfold in_range in H; apply andb_true_iff in H as [_ H];
      apply N.leb_le in H
  end.
  simpl. rewrite andb_true_r. apply N.ltb_lt. lia.
Qed.

Lemma escaped_ascii (s : pystr) : is_ascii (flat_map escape_char s) = true.
Proof.
  induction s as [|c s IH]; simpl; [reflexivity|].
  now rewrite is_ascii_app, escape_char_ascii, IH.
Qed.

Lemma encode_basestring_ascii_is_ascii (s : pystr) :
  is_ascii (encode_basestring_ascii s) = true.
Proof.
  unfold encode_basestring_ascii. simpl.
  now rewrite is_ascii_app, escaped_ascii.
Qed.

(** What [generate_response] builds, in the words of the data model. *)
Lemma generate_response_str (success : bool) (m : pystr) :
  generate_response success (PStr m)
  = Result success (match m with [] => None | _ :: _ => Some m end).
Proof. destruct m; reflexivity. Qed.

Lemma generate_response_None (success : bool) :
  generate_response success PNone = Result success None.
Proof. reflexivity. Qed.

Lemma json_dumps_Result (success : bool) (message : option pystr) :
  json_dumps (Result success message)
  = lit "{" ++ encode_basestring_ascii (lit "success") ++ lit ": "
      ++ (if success then lit "true" else lit "false")
      ++ match message with
         | Some m => lit ", " ++ encode_basestring_ascii (lit "message")
                       ++ lit ": " ++ encode_basestring_ascii m
         | None => []
         end
      ++ lit "}".
Proof. destruct success, message; reflexivity. Qed.

Lemma json_dumps_Result_ascii (success : bool) (message : option pystr) :
  is_ascii (json_dumps (Result success message)) = true.
Proof.
  rewrite json_dumps_Result.
  destruct success, message as [m|];
    repeat (rewrite is_ascii_app); rewrite ?encode_basestring_ascii_is_ascii;
    reflexivity.
Qed.

(** A Result always makes it to the pipe, as one frame. *)
Lemma write_response_Result (success : bool) (message : option pystr)
      (st : state) :
  write_response (Result success message) st
  = WriteFile (frame (Result success message)) st.
Proof.
  unfold write_response, frame.
  rewrite encode_utf8_ascii; [reflexivity|].
  now rewrite is_ascii_app, json_dumps_Result_ascii.
Qed.

Lemma write_response_generate (success : bool) (m : pystr) (st : state) :
  write_response (generate_response success (PStr m)) st
  = WriteFile (frame (generate_response success (PStr m))) st.
Proof. rewrite generate_response_str. apply write_response_Result. Qed.

(** ** One turn of the [for] loop *)

(** The body of the loop on a map, by the name it carries. *)
Lemma for_body_dict (d : list (pystr * pyval)) (st : state) :
  for_body (PDict d) st
  = if eq_str (func_of d) (lit "initialize") then
      Continue (WriteFile (frame initialized_result) (snd (initialize st)))
    else if eq_str (func_of d) (lit "describe_screen") then
      match describe_screen (params_of d) (world st) with
      | (Ok response, w) => Continue (write_response response (set_world w st))
      | (Err e, w) => Raise e (set_world w st)
      end
    else if eq_str (func_of d) (lit "shutdown") then
      Return (WriteFile (frame shutdown_result) (snd (shutdown st)))
    else Continue (WriteFile (frame unknown_result) st).
Proof.
  unfold for_body, py_get, func_of, params_of.
  destruct (dict_lookup d (lit "func")) as [func|];
    destruct (dict_lookup d (lit "params")) as [params|];
    repeat match goal with
           | |- context [if ?b then _ else _] => destruct b
           end;
    try reflexivity.
Qed.

Lemma for_body_unknown (d : list (pystr * pyval)) (st : state) :
  eq_str (func_of d) (lit "initialize") = false ->
  eq_str (func_of d) (lit "describe_screen") = false ->
  eq_str (func_of d) (lit "shutdown") = false ->
  for_body (PDict d) st = Continue (WriteFile (frame unknown_result) st).
Proof. intros H1 H2 H3. now rewrite for_body_dict, H1, H2, H3. Qed.

Lemma for_body_not_dict (tool_call : pyval) (st : state) :
  (forall d, tool_call <> PDict d) ->
  for_body tool_call st = Raise AttributeError st.
Proof.
  intros H. destruct tool_call; try reflexivity. now destruct (H d).
Qed.

(** ** What each function does to the pipes *)

Lemma read_command_pipe_out (st st' : state) (v : pyval) :
  read_command st = Some (v, st') ->
  pipe_out st' = pipe_out st /\ world st' = world st.
Proof.
  unfold read_command.
  destruct (read_chunks (pipe_in st) []) as [[chunks| | |] pipe]; try discriminate.
  - destruct (json_loads (List.concat chunks)) as [command|[]];
      intros H; inversion H; subst; split; reflexivity.
  - intros H; inversion H; subst; split; reflexivity.
  - intros H; inversion H; subst; split; reflexivity.
Qed.

Lemma write_response_pipe_out (response : pyval) (st : state) :
  exists frames,
    pipe_out (write_response response st) = pipe_out st ++ frames.
Proof.
  unfold write_response.
  destruct (encode_utf8 (json_dumps response ++ END_MARKER)) as [bytes|].
  - exists [bytes]. reflexivity.
  - exists []. simpl. now rewrite app_nil_r.
Qed.

Lemma write_response_pipe_in (response : pyval) (st : state) :
  pipe_in (write_response response st) = pipe_in st.
Proof.
  unfold write_response.
  now destruct (encode_utf8 (json_dumps response ++ END_MARKER)).
Qed.

(** A turn that goes on has only added frames; a turn that returns has
    added the frame of the shutdown Result, and nothing else. *)
Lemma for_body_pipe_out (tool_call : pyval) (st : state) :
  match for_body tool_call st with
  | Continue st' => exists frames, pipe_out st' = pipe_out st ++ frames
  | Return st' => pipe_out st' = pipe_out st ++ [frame shutdown_result]
  | Raise _ _ => True
  end.
Proof.
  destruct tool_call; try exact I.
  rewrite for_body_dict.
  destruct (eq_str (func_of d) (lit "initialize")).
  { now exists [frame initialized_result]. }
  destruct (eq_str (func_of d) (lit "describe_screen")).
  { destruct (describe_screen (params_of d) (world st)) as [[response|e] w];
      [|exact I].
    apply (write_response_pipe_out response (set_world w st)). }
  destruct (eq_str (func_of d) (lit "shutdown")).
  { reflexivity. }
  now exists [frame unknown_result].
Qed.

Lemma for_body_pipe_in (tool_call : pyval) (st : state) :
  match for_body tool_call st with
  | Continue st' | Return st' | Raise _ st' => pipe_in st' = pipe_in st
  end.
Proof.
  destruct tool_call; try reflexivity.
  rewrite for_body_dict.
  destruct (eq_str (func_of d) (lit "initialize")); [reflexivity|].
  destruct (eq_str (func_of d) (lit "describe_screen")).
  { destruct (describe_screen (params_of d) (world st)) as [[response|e] w];
      [|reflexivity].
    now rewrite write_response_pipe_in. }
  destruct (eq_str (func_of d) (lit "shutdown")); reflexivity.
Qed.

Lemma for_tool_calls_pipe_out (tool_calls : list pyval) (st : state) :
  match for_tool_calls tool_calls st with
  | Continue st' => exists frames, pipe_out st' = pipe_out st ++ frames
  | Return st' =>
      exists frames,
        pipe_out st' = pipe_out st ++ frames ++ [frame shutdown_result]
  | Raise _ _ => True
  end.
Proof.
  revert st. induction tool_calls as [|tc rest IH]; intros st; simpl.
  - exists []. now rewrite app_nil_r.
  - pose proof (for_body_pipe_out tc st) as Hb.
    destruct (for_body tc st) as [st1|st1|e st1].
    + destruct Hb as [fs Hfs]. specialize (IH st1).
      destruct (for_tool_calls rest st1) as [st2|st2|e st2].
      * destruct IH as [gs Hgs]. exists (fs ++ gs).
        now rewrite Hgs, Hfs, app_assoc.
      * destruct IH as [gs Hgs]. exists (fs ++ gs).
        now rewrite Hgs, Hfs, <- !app_assoc.
      * exact I.
    + exists []. exact Hb.
    + exact I.
Qed.

Lemma for_tool_calls_pipe_in (tool_calls : list pyval) (st : state) :
  match for_tool_calls tool_calls st with
  | Continue st' | Return st' | Raise _ st' => pipe_in st' = pipe_in st
  end.
Proof.
  revert st. induction tool_calls as [|tc rest IH]; intros st; simpl.
  - reflexivity.
  - pose proof (for_body_pipe_in tc st) as Hb.
    destruct (for_body tc st) as [st1|st1|e st1]; try exact Hb.
    specialize (IH st1).
    destruct (for_tool_calls rest st1); congruence.
Qed.

Lemma main_loop_step (fuel : nat) (st : state) :
  main_loop (S fuel) st
  = match read_command st with
    | None => (RUNNING, set_pipe_in [] st)
    | Some (command, st') => serve fuel command st'
    end.
Proof.
  simpl. destruct (read_command st) as [[command st']|]; [|reflexivity].
  destruct command; reflexivity.
Qed.

(** ** The lifecycle signals *)

(** C4. The reserved [initialize] invocation always gets the Result
    {success: true, message: "Plugin initialized successfully"} and the
    reserved [shutdown] invocation the Result {success: true, message:
    "Plugin shutdown successfully"}; the body of the loop writes the frame
    of the first and goes on, writes the frame of the second and makes
    [main] return; and whenever the loop stops, the last frame on the
    output pipe is the one of the shutdown Result. *)
Theorem lifecycle_signals :
  (forall st, fst (initialize st)
              = Result true (Some (lit "Plugin initialized successfully")))
  /\ (forall st, fst (shutdown st)
                 = Result true (Some (lit "Plugin shutdown successfully")))
  /\ (forall d st,
         func_of d = PStr (lit "initialize") ->
         for_body (PDict d) st
         = Continue (WriteFile (frame (fst (initialize st)))
                               (snd (initialize st))))
  /\ (forall d st,
         func_of d = PStr (lit "shutdown") ->
         for_body (PDict d) st
         = Return (WriteFile (frame (fst (shutdown st))) (snd (shutdown st))))
  /\ (forall fuel st st',
         main_loop fuel st = (STOPPED, st') ->
         exists frames,
           pipe_out st'
           = pipe_out st ++ frames
               ++ [frame (Result true
                            (Some (lit "Plugin shutdown successfully")))]).
Proof.
  repeat split.
  - intros d st H. rewrite for_body_dict, H. reflexivity.
  - intros d st H. rewrite for_body_dict, H. reflexivity.
  - induction fuel as [|fuel IH]; intros st st' H; [discriminate|].
    rewrite main_loop_step in H.
    destruct (read_command st) as [[command st1]|] eqn:Hread; [|discriminate].
    apply read_command_pipe_out in Hread as [Hout _]. rewrite <- Hout.
    assert (Hnone : main_loop fuel
                      (logging ERROR (lit "Error reading command") None st1)
                    = (STOPPED, st') ->
                    exists frames,
                      pipe_out st' = pipe_out st1 ++ frames
                                       ++ [frame shutdown_result]).
    { intros H'. apply IH in H'. exact H'. }
    unfold serve in H.
    destruct (py_get command (lit "tool_calls") (PList [])) as [tool_calls|e];
      [|destruct command; try discriminate; auto].
    destruct (py_iter tool_calls) as [items|e];
      [|destruct command; try discriminate; auto].
    pose proof (for_tool_calls_pipe_out items st1) as Hfor.
    destruct (for_tool_calls items st1) as [st2|st2|e st2].
    + destruct Hfor as [fs Hfs].
      destruct command; auto;
        (apply IH in H; destruct H as [gs Hgs]; exists (fs ++ gs);
         rewrite Hgs, Hfs, <- !app_assoc; reflexivity).
    + destruct command; auto; inversion H; subst; exact Hfor.
    + destruct command; auto; discriminate.
Qed.

(** ** Defaults and failed reads *)

(** C9. A decoded Command object without a [tool_calls] key is served as
    an empty list of invocations: the turn writes nothing and the loop
    goes on to the next command. An invocation without a [params] key
    hands the empty map to its handler, so that [describe_screen] answers
    that its [prompt] is missing. *)
Theorem missing_keys_default :
  (forall fuel st st1 d,
      read_command st = Some (PDict d, st1) ->
      dict_lookup d (lit "tool_calls") = None ->
      pipe_out st1 = pipe_out st
      /\ main_loop (S fuel) st = main_loop fuel st1)
  /\ (forall d, dict_lookup d (lit "params") = None ->
                py_get (PDict d) (lit "params") (PDict []) = Ok (PDict []))
  /\ (forall d st,
         dict_lookup d (lit "params") = None ->
         func_of d = PStr (lit "describe_screen") ->
         describe_screen (PDict []) (world st)
         = (Ok (Result false (Some (lit "Missing required parameter: prompt"))),
            world st)
         /\ for_body (PDict d) st
            = Continue
                (WriteFile
                   (frame (Result false
                             (Some (lit "Missing required parameter: prompt"))))
                   st)).
Proof.
  repeat split.
  - now apply read_command_pipe_out in H.
  - rewrite main_loop_step, H. unfold serve, py_get. now rewrite H0.
  - intros d H. unfold py_get. now rewrite H.
  - rewrite for_body_dict, H0. unfold params_of. rewrite H.
    simpl. now destruct st.
Qed.

Lemma main_loop_waits (fuel : nat) (st : state) :
  pipe_in st = [] ->
  main_loop (S fuel) st = (RUNNING, set_pipe_in [] st).
Proof.
  intros H. rewrite main_loop_step. unfold read_command. now rewrite H.
Qed.

(** [read_command] on a text that [json.loads] does not take. *)
Lemma read_command_loads_error
      (st : state) (chunks : list pystr) (rest : list read_event) (e : exn) :
  read_chunks (pipe_in st) [] = (Break chunks, rest) ->
  json_loads (List.concat chunks) = Err e ->
  exists st',
    read_command st = Some (PNone, st')
    /\ pipe_out st' = pipe_out st
    /\ pipe_in st' = rest
    /\ (exists records r,
           log_file st' = log_file st ++ records ++ [r]
           /\ log_level r = ERROR).
Proof.
  intros Hc He. unfold read_command. rewrite Hc. cbv zeta. rewrite He.
  set (raw := mkLog INFO (lit "Raw Input: " ++ List.concat chunks) None).
  set (invalid := mkLog ERROR (lit "Received invalid JSON: "
                                 ++ List.concat chunks) None).
  assert (Hother :
            exists st',
              Some (PNone,
                    logging ERROR (lit "Exception in read_command(): ") (Some e)
                      (logging INFO (lit "Raw Input: " ++ List.concat chunks)
                         None (set_pipe_in rest st)))
              = Some (PNone, st')
              /\ pipe_out st' = pipe_out st
              /\ pipe_in st' = rest
              /\ (exists records r,
                     log_file st' = log_file st ++ records ++ [r]
                     /\ log_level r = ERROR)).
  { eexists. split; [reflexivity|]. split; [reflexivity|].
    split; [reflexivity|].
    exists [raw], (mkLog ERROR (lit "Exception in read_command(): ") (Some e)).
    split; [|reflexivity]. cbn [log_file logging set_pipe_in].
    now rewrite <- app_assoc. }
  destruct e; try exact Hother.
  eexists. split; [reflexivity|]. split; [reflexivity|].
  split; [reflexivity|].
  exists [raw; invalid],
         (mkLog ERROR (lit "JSON decoding failed:") (Some JSONDecodeError)).
  split; [|reflexivity]. cbn [log_file logging set_pipe_in].
  now rewrite <- !app_assoc.
Qed.

(** C6. A failed read is not fatal. Whether [ReadFile] fails, or the
    text that was read is not valid JSON (or, beyond the claim, the bytes
    are not UTF-8 or the decoder raises anything else), [read_command]
    returns [None] after logging an error, nothing is written to the
    output pipe, and [main] logs the failure and goes on to its next turn,
    where it reads the next command: if none has come, it waits for one. *)
Theorem failed_read_is_not_fatal
        (fuel : nat) (st : state) (rest : list read_event) :
  read_chunks (pipe_in st) [] = (ReturnNone, rest)
  \/ (exists chunks,
         read_chunks (pipe_in st) [] = (Break chunks, rest)
         /\ json_loads (List.concat chunks) = Err JSONDecodeError)
  \/ read_chunks (pipe_in st) [] = (DecodeRaises, rest)
  \/ (exists chunks e,
         read_chunks (pipe_in st) [] = (Break chunks, rest)
         /\ json_loads (List.concat chunks) = Err e) ->
  exists st',
    read_command st = Some (PNone, st')
    /\ pipe_out st' = pipe_out st
    /\ pipe_in st' = rest
    /\ (exists records r,
           log_file st' = log_file st ++ records ++ [r]
           /\ log_level r = ERROR)
    /\ main_loop (S fuel) st
       = main_loop fuel
           (logging ERROR (lit "Error reading command") None st')
    /\ (rest = [] -> fst (main_loop (S (S fuel)) st) = RUNNING).
Proof.
  intros H.
  assert (Hread : exists st',
             read_command st = Some (PNone, st')
             /\ pipe_out st' = pipe_out st
             /\ pipe_in st' = rest
             /\ (exists records r,
                    log_file st' = log_file st ++ records ++ [r]
                    /\ log_level r = ERROR)).
  { destruct H as [H | [[chunks [H He]] | [H | [chunks [e [H He]]]]]].
    - unfold read_command. rewrite H. eexists.
      split; [reflexivity|]. split; [reflexivity|]. split; [reflexivity|].
      exists [], (mkLog ERROR (lit "Error reading from command pipe") None).
      split; reflexivity.
    - exact (read_command_loads_error st chunks rest JSONDecodeError H He).
    - unfold read_command. rewrite H. eexists.
      split; [reflexivity|]. split; [reflexivity|]. split; [reflexivity|].
      exists [], (mkLog ERROR (lit "Exception in read_command(): ")
                        (Some UnicodeDecodeError)).
      split; reflexivity.
    - exact (read_command_loads_error st chunks rest e H He). }
  destruct Hread as (st' & Hread & Hout & Hin & Hlog).
  exists st'.
  split; [exact Hread|]. split; [exact Hout|]. split; [exact Hin|].
  split; [exact Hlog|].
  split; [rewrite main_loop_step, Hread; reflexivity|].
  intros Hrest.
  rewrite main_loop_step, Hread. unfold serve.
  rewrite main_loop_waits; [reflexivity|].
  simpl. now rewrite Hin.
Qed.

(** ** One frame per invocation *)

(** With a handler that keeps its contract, [describe_screen] returns a
    Result on every parameter map. *)
Lemma describe_screen_returns (p : list (pystr * pyval)) (w : World) :
  (forall prompt w0 e, fst (screen_query prompt w0) <> QueryRaises e) ->
  exists success message w',
    describe_screen (PDict p) w = (Ok (Result success message), w').
Proof.
  intros Hq. unfold describe_screen, py_get.
  destruct (dict_lookup p (lit "prompt")) as [prompt|].
  - destruct (truthy prompt); simpl.
    + pose proof (Hq prompt w) as Hw.
      destruct (screen_query prompt w) as [[text| |e] w'].
      * rewrite generate_response_str. eauto.
      * rewrite generate_response_str. eauto.
      * now destruct (Hw e).
    + rewrite generate_response_str. eauto.
  - simpl. rewrite generate_response_str. eauto.
Qed.

Lemma func_not_shutdown (v : pyval) (name : pystr) :
  eq_str v name = true ->
  pystr_eqb name (lit "shutdown") = false ->
  eq_str v (lit "shutdown") = false.
Proof.
  intros H Hn. apply eq_str_true in H. subst v. exact Hn.
Qed.

(** The body of the loop on an invocation writes the frame of the Result
    the Command Router gives it, and ends the loop only on a shutdown. *)
Lemma for_body_invocation (tool_call : pyval) (st : state) :
  is_invocation tool_call = true ->
  (forall prompt w e, fst (screen_query prompt w) <> QueryRaises e) ->
  exists r st',
    dispatch tool_call (world st) = (Ok r, world st')
    /\ for_body tool_call st
       = (if is_shutdown tool_call then Return st' else Continue st')
    /\ pipe_out st' = pipe_out st ++ [frame r].
Proof.
  intros Hinv Hq. destruct tool_call as [| | | | | |d]; try discriminate.
  simpl in Hinv. rewrite for_body_dict. unfold dispatch, is_shutdown.
  destruct (eq_str (func_of d) (lit "initialize")) eqn:Hi.
  { rewrite (func_not_shutdown _ _ Hi eq_refl).
    exists initialized_result,
           (WriteFile (frame initialized_result) (snd (initialize st))).
    repeat split. }
  destruct (eq_str (func_of d) (lit "describe_screen")) eqn:Hd.
  { rewrite (func_not_shutdown _ _ Hd eq_refl).
    destruct (params_of d) as [| | | | | |p]; try discriminate.
    destruct (describe_screen_returns p (world st) Hq)
      as (success & message & w' & Hr).
    rewrite Hr, write_response_Result.
    exists (Result success message),
           (WriteFile (frame (Result success message)) (set_world w' st)).
    repeat split. }
  destruct (eq_str (func_of d) (lit "shutdown")) eqn:Hs.
  { exists shutdown_result,
           (WriteFile (frame shutdown_result) (snd (shutdown st))).
    repeat split. }
  exists unknown_result, (WriteFile (frame unknown_result) st).
  repeat split.
Qed.

Lemma processed_no_shutdown (tool_calls : list pyval) :
  existsb is_shutdown tool_calls = false -> processed tool_calls = tool_calls.
Proof.
  induction tool_calls as [|tc rest IH]; simpl; [reflexivity|].
  intros H. apply orb_false_iff in H as [H1 H2].
  now rewrite H1, IH.
Qed.

Lemma processed_shutdown (tool_calls : list pyval) :
  existsb is_shutdown tool_calls = true ->
  exists before signal after,
    tool_calls = before ++ signal :: after
    /\ existsb is_shutdown before = false
    /\ is_shutdown signal = true
    /\ processed tool_calls = before ++ [signal].
Proof.
  induction tool_calls as [|tc rest IH]; simpl; [discriminate|].
  destruct (is_shutdown tc) eqn:Htc.
  - intros _. exists [], tc, rest. repeat split; assumption.
  - simpl. intros H. destruct (IH H) as (b & s & a & -> & Hb & Hs & Hp).
    exists (tc :: b), s, a. simpl. rewrite Htc, Hp. repeat split; assumption.
Qed.

(** The [for] loop over the invocations of a valid Command. *)
Lemma for_tool_calls_invocations (tool_calls : list pyval) (st : state) :
  forallb is_invocation tool_calls = true ->
  (forall prompt w e, fst (screen_query prompt w) <> QueryRaises e) ->
  exists st',
    for_tool_calls tool_calls st
    = (if existsb is_shutdown tool_calls then Return st' else Continue st')
    /\ pipe_out st'
       = pipe_out st ++ map frame (results (processed tool_calls) (world st))
    /\ List.length (results (processed tool_calls) (world st))
       = List.length (processed tool_calls).
Proof.
  intros Hall Hq. revert st.
  induction tool_calls as [|tc rest IH]; intros st.
  - exists st. simpl. now rewrite app_nil_r.
  - simpl in Hall. apply andb_true_iff in Hall as [Htc Hrest].
    destruct (for_body_invocation tc st Htc Hq) as (r & st1 & Hd & Hb & Hout).
    simpl. rewrite Hb.
    destruct (is_shutdown tc) eqn:Hs; simpl.
    + exists st1. rewrite Hd. simpl. repeat split. exact Hout.
    + destruct (IH Hrest st1) as (st2 & Hfor & Hout2 & Hlen).
      exists st2. rewrite Hd. simpl. repeat split.
      * exact Hfor.
      * rewrite Hout2, Hout, <- app_assoc. reflexivity.
      * now rewrite Hlen.
Qed.

(** As long as no handler raises, processing a valid Command with N
    invocations writes one Result frame per invocation, in the order of the
    invocations: exactly N frames when none of them is the shutdown signal
    (none at all for an empty list), after which the loop goes on to the
    next command; and when one is the shutdown signal, the frames of the
    invocations up to and including the first shutdown, after which [main]
    returns and the invocations behind it are abandoned. *)
Theorem one_frame_per_invocation
        (fuel : nat) (st st1 : state) (d : list (pystr * pyval))
        (tool_calls : list pyval) :
  read_command st = Some (PDict d, st1) ->
  dict_lookup d (lit "tool_calls") = Some (PList tool_calls) ->
  forallb is_invocation tool_calls = true ->
  (forall prompt w e, fst (screen_query prompt w) <> QueryRaises e) ->
  let served := processed tool_calls in
  let rs := results served (world st1) in
  exists st',
    pipe_out st' = pipe_out st ++ map frame rs
    /\ List.length rs = List.length served
    /\ (existsb is_shutdown tool_calls = false ->
        served = tool_calls
        /\ main_loop (S fuel) st = main_loop fuel st')
    /\ (existsb is_shutdown tool_calls = true ->
        (exists before signal after,
            tool_calls = before ++ signal :: after
            /\ existsb is_shutdown before = false
            /\ is_shutdown signal = true
            /\ served = before ++ [signal])
        /\ main_loop (S fuel) st = (STOPPED, st')).
Proof.
  intros Hread Hcalls Hall Hq served rs.
  destruct (for_tool_calls_invocations tool_calls st1 Hall Hq)
    as (st' & Hfor & Hout & Hlen).
  exists st'.
  apply read_command_pipe_out in Hread as Hsame. destruct Hsame as [Hsame _].
  assert (Hstep : main_loop (S fuel) st
                  = match for_tool_calls tool_calls st1 with
                    | Continue st2 => main_loop fuel st2
                    | Return st2 => (STOPPED, st2)
                    | Raise e st2 => (CRASHED e, st2)
                    end).
  { rewrite main_loop_step, Hread. unfold serve, py_get.
    rewrite Hcalls. reflexivity. }
  repeat split.
  - rewrite <- Hsame. exact Hout.
  - exact Hlen.
  - now apply processed_no_shutdown.
  - rewrite Hstep, Hfor, H. reflexivity.
  - now apply processed_shutdown.
  - rewrite Hstep, Hfor, H. reflexivity.
Qed.

(** ** A handler that raises *)

(** The body of the loop has no guard around the handler: what
    [describe_screen] lets through ends the turn before any write. *)
Lemma for_body_handler_fault
      (entry : list (pystr * pyval)) (prompt : pyval) (e : exn) (w : World)
      (st : state) :
  func_of entry = PStr (lit "describe_screen") ->
  py_get (params_of entry) (lit "prompt") PNone = Ok prompt ->
  truthy prompt = true ->
  screen_query prompt (world st) = (QueryRaises e, w) ->
  for_body (PDict entry) st = Raise e (set_world w st).
Proof.
  intros Hfunc Hprompt Htruthy Hquery.
  rewrite for_body_dict, Hfunc.
  change (eq_str (PStr (lit "describe_screen")) (lit "initialize")) with false.
  change (eq_str (PStr (lit "describe_screen")) (lit "describe_screen"))
    with true.
  cbv iota. unfold describe_screen.
  now rewrite Hprompt, Htruthy, Hquery.
Qed.

(** C1. The promise of one frame per invocation is not kept when the
    handler raises: on a valid Command whose first invocation asks for the
    screen, with a prompt, and whose handler raises an exception other than
    [requests.RequestException] (a reply of the service without [output]
    raises [KeyError]), [main] writes no frame at all, for this invocation
    or for those behind it, and the exception ends the process. *)
Theorem handler_fault_drops_the_frames
        (fuel : nat) (st st1 : state) (d entry : list (pystr * pyval))
        (rest : list pyval) (prompt : pyval) (e : exn) (w : World) :
  read_command st = Some (PDict d, st1) ->
  dict_lookup d (lit "tool_calls") = Some (PList (PDict entry :: rest)) ->
  forallb is_invocation (PDict entry :: rest) = true ->
  func_of entry = PStr (lit "describe_screen") ->
  py_get (params_of entry) (lit "prompt") PNone = Ok prompt ->
  truthy prompt = true ->
  screen_query prompt (world st1) = (QueryRaises e, w) ->
  main_loop (S fuel) st = (CRASHED e, set_world w st1)
  /\ pipe_out (set_world w st1) = pipe_out st
  /\ 1 <= List.length (processed (PDict entry :: rest)).
Proof.
  intros Hread Hcalls _ Hfunc Hprompt Htruthy Hquery.
  split; [|split].
  - rewrite main_loop_step, Hread. unfold serve, py_get at 1.
    rewrite Hcalls. cbn [py_iter for_tool_calls].
    now rewrite (for_body_handler_fault entry prompt e w st1).
  - apply read_command_pipe_out in Hread as [Hout _]. exact Hout.
  - cbn [processed is_shutdown]. rewrite Hfunc.
    change (eq_str (PStr (lit "describe_screen")) (lit "shutdown")) with false.
    cbn [List.length]. lia.
Qed.

(** ** The routing error in the loop *)

(** Whatever a turn of the loop ends in, it has only added frames. *)
Lemma for_body_adds (tool_call : pyval) (st : state) :
  exists frames,
    pipe_out (flow_state (for_body tool_call st)) = pipe_out st ++ frames.
Proof.
  destruct tool_call as [| | | | | |d];
    try solve [exists []; cbn; now rewrite app_nil_r].
  rewrite for_body_dict.
  destruct (eq_str (func_of d) (lit "initialize")).
  { now exists [frame initialized_result]. }
  destruct (eq_str (func_of d) (lit "describe_screen")).
  { destruct (describe_screen (params_of d) (world st)) as [[response|e] w].
    - apply (write_response_pipe_out response (set_world w st)).
    - exists []. cbn. now rewrite app_nil_r. }
  destruct (eq_str (func_of d) (lit "shutdown")).
  { now exists [frame shutdown_result]. }
  now exists [frame unknown_result].
Qed.

Lemma for_tool_calls_adds (tool_calls : list pyval) (st : state) :
  exists frames,
    pipe_out (flow_state (for_tool_calls tool_calls st))
    = pipe_out st ++ frames.
Proof.
  revert st. induction tool_calls as [|tc rest IH]; intros st.
  - exists []. cbn. now rewrite app_nil_r.
  - destruct (for_body_adds tc st) as [fs Hfs].
    cbn [for_tool_calls].
    destruct (for_body tc st) as [st1|st1|e st1]; cbn [flow_state] in Hfs.
    + destruct (IH st1) as [gs Hgs]. exists (fs ++ gs).
      now rewrite Hgs, Hfs, app_assoc.
    + now exists fs.
    + now exists fs.
Qed.

(** The [for] loop at an entry that names no function of the plugin: the
    frame of the routing error is the next frame on the pipe, whatever
    follows the entry, and the entries behind it are served from there. *)
Lemma for_tool_calls_unknown
      (d : list (pystr * pyval)) (rest : list pyval) (st : state) :
  eq_str (func_of d) (lit "initialize") = false ->
  eq_str (func_of d) (lit "describe_screen") = false ->
  eq_str (func_of d) (lit "shutdown") = false ->
  for_tool_calls [PDict d] st = Continue (WriteFile (frame unknown_result) st)
  /\ for_tool_calls (PDict d :: rest) st
     = for_tool_calls rest (WriteFile (frame unknown_result) st)
  /\ (exists frames,
         pipe_out (flow_state (for_tool_calls (PDict d :: rest) st))
         = pipe_out st ++ frame unknown_result :: frames)
  /\ (forallb is_invocation rest = true ->
      (forall prompt w e, fst (screen_query prompt w) <> QueryRaises e) ->
      exists st',
        for_tool_calls (PDict d :: rest) st
        = (if existsb is_shutdown rest then Return st' else Continue st')
        /\ pipe_out st'
           = pipe_out st
               ++ frame unknown_result
               :: map frame (results (processed rest) (world st))
        /\ List.length (results (processed rest) (world st))
           = List.length (processed rest)).
Proof.
  intros H1 H2 H3.
  assert (Hb : forall st0, for_body (PDict d) st0
                           = Continue (WriteFile (frame unknown_result) st0)).
  { intros st0. now apply for_body_unknown. }
  assert (Hstep : forall items,
             for_tool_calls (PDict d :: items) st
             = for_tool_calls items (WriteFile (frame unknown_result) st)).
  { intros items. cbn [for_tool_calls]. now rewrite Hb. }
  split; [|split; [|split]].
  - now rewrite Hstep.
  - apply Hstep.
  - rewrite Hstep.
    destruct (for_tool_calls_adds rest (WriteFile (frame unknown_result) st))
      as [fs Hfs].
    exists fs. rewrite Hfs. cbn [WriteFile pipe_out].
    now rewrite <- app_assoc.
  - intros Hinv Hq. rewrite Hstep.
    destruct (for_tool_calls_invocations
                rest (WriteFile (frame unknown_result) st) Hinv Hq)
      as (st' & Hfor & Hout & Hlen).
    exists st'. split; [exact Hfor|]. split; [|exact Hlen].
    rewrite Hout. cbn [WriteFile pipe_out world].
    now rewrite <- app_assoc.
Qed.

(** C5. An invocation whose function name is none of [initialize],
    [describe_screen] and [shutdown] gets exactly the Result
    {success: false, message: "Unknown function call"}: the body of the
    loop does not raise and writes the frame of that Result; the loop over
    that invocation alone ends with this one frame written; whatever
    follows the invocation, this frame is the next one on the output pipe;
    and the loop goes on with the next invocation, so that the invocations
    that follow it get their frames behind it, one each and in order, up to
    the first shutdown. *)
Theorem unknown_function_call
        (d : list (pystr * pyval)) (rest : list pyval) (st : state) :
  func_of d <> PStr (lit "initialize") ->
  func_of d <> PStr (lit "describe_screen") ->
  func_of d <> PStr (lit "shutdown") ->
  let response := Result false (Some (lit "Unknown function call")) in
  generate_response false (PStr (lit "Unknown function call")) = response
  /\ for_body (PDict d) st = Continue (WriteFile (frame response) st)
  /\ pipe_out (WriteFile (frame response) st) = pipe_out st ++ [frame response]
  /\ for_tool_calls [PDict d] st = Continue (WriteFile (frame response) st)
  /\ for_tool_calls (PDict d :: rest) st
     = for_tool_calls rest (WriteFile (frame response) st)
  /\ (exists frames,
         pipe_out (flow_state (for_tool_calls (PDict d :: rest) st))
         = pipe_out st ++ frame response :: frames)
  /\ (forallb is_invocation rest = true ->
      (forall prompt w e, fst (screen_query prompt w) <> QueryRaises e) ->
      exists st',
        for_tool_calls (PDict d :: rest) st
        = (if existsb is_shutdown rest then Return st' else Continue st')
        /\ pipe_out st'
           = pipe_out st
               ++ frame response
               :: map frame (results (processed rest) (world st))
        /\ List.length (results (processed rest) (world st))
           = List.length (processed rest)).
Proof.
  intros H1 H2 H3 response.
  apply eq_str_false in H1, H2, H3.
  destruct (for_tool_calls_unknown d rest st H1 H2 H3)
    as (Hone & Hstep & Hnext & Hrest).
  split; [reflexivity|]. split; [now apply for_body_unknown|].
  split; [reflexivity|]. split; [exact Hone|]. split; [exact Hstep|].
  split; [exact Hnext|exact Hrest].
Qed.

(** C10. A tool-call entry without a [func] key, or whose [func] is null,
    is neither skipped nor a fault: the body of the loop takes the branch
    of the unknown function and writes the frame of the Result
    {success: false, message: "Unknown function call"}; the loop over that
    entry alone ends with this one frame written; whatever follows the
    entry, this frame is the next one on the output pipe; and the loop goes
    on with the remaining invocations, which get their frames behind it,
    one each and in order, up to the first shutdown. *)
Theorem missing_func_is_unknown
        (d : list (pystr * pyval)) (rest : list pyval) (st : state) :
  dict_lookup d (lit "func") = None
  \/ dict_lookup d (lit "func") = Some PNone ->
  let response := Result false (Some (lit "Unknown function call")) in
  for_body (PDict d) st = Continue (WriteFile (frame response) st)
  /\ pipe_out (WriteFile (frame response) st) = pipe_out st ++ [frame response]
  /\ for_tool_calls [PDict d] st = Continue (WriteFile (frame response) st)
  /\ for_tool_calls (PDict d :: rest) st
     = for_tool_calls rest (WriteFile (frame response) st)
  /\ (exists frames,
         pipe_out (flow_state (for_tool_calls (PDict d :: rest) st))
         = pipe_out st ++ frame response :: frames)
  /\ (forallb is_invocation rest = true ->
      (forall prompt w e, fst (screen_query prompt w) <> QueryRaises e) ->
      exists st',
        for_tool_calls (PDict d :: rest) st
        = (if existsb is_shutdown rest then Return st' else Continue st')
        /\ pipe_out st'
           = pipe_out st
               ++ frame response
               :: map frame (results (processed rest) (world st))
        /\ List.length (results (processed rest) (world st))
           = List.length (processed rest)).
Proof.
  intros H response.
  assert (Hf : func_of d = PNone).
  { unfold func_of. now destruct H as [-> | ->]. }
  assert (H1 : eq_str (func_of d) (lit "initialize") = false)
    by now rewrite Hf.
  assert (H2 : eq_str (func_of d) (lit "describe_screen") = false)
    by now rewrite Hf.
  assert (H3 : eq_str (func_of d) (lit "shutdown") = false)
    by now rewrite Hf.
  destruct (for_tool_calls_unknown d rest st H1 H2 H3)
    as (Hone & Hstep & Hnext & Hrest).
  split; [now apply for_body_unknown|].
  split; [reflexivity|]. split; [exact Hone|]. split; [exact Hstep|].
  split; [exact Hnext|exact Hrest].
Qed.

(** ** Reading a command *)

Lemma decode_utf8_ascii (bs : list byte) :
  bytes_ascii bs = true -> decode_utf8 bs = Some (map Byte.to_N bs).
Proof.
  induction bs as [|b bs IH]; [reflexivity|].
  intros H. simpl in H. apply andb_true_iff in H as [Hb Hbs].
  cbn [decode_utf8 map]. rewrite Hb, (IH Hbs). reflexivity.
Qed.

Lemma bytes_ascii_zeros (k : nat) : bytes_ascii (repeat x00 k) = true.
Proof. induction k; simpl; auto. Qed.

Lemma bytes_ascii_app (a b : list byte) :
  bytes_ascii (a ++ b) = bytes_ascii a && bytes_ascii b.
Proof. apply forallb_app. Qed.

(** The chunk [read_command] takes from the buffer when the bytes read are
    ASCII: their text. *)
Lemma chunk_of_ascii (data : list byte) (k : nat) :
  bytes_ascii data = true ->
  option_map (firstn (List.length data)) (decode_utf8 (data ++ repeat x00 k))
  = Some (map Byte.to_N data).
Proof.
  intros H. rewrite decode_utf8_ascii.
  - simpl. rewrite map_app, <- (length_map Byte.to_N data).
    rewrite firstn_app, Nat.sub_diag, firstn_all. simpl.
    now rewrite app_nil_r.
  - now rewrite bytes_ascii_app, H, bytes_ascii_zeros.
Qed.

Lemma read_chunks_unfold (ev : read_event) (pipe : list read_event)
      (chunks : list pystr) :
  read_chunks (ev :: pipe) chunks
  = match ev with
    | ReadFails => (ReturnNone, pipe)
    | ReadGives data =>
        match option_map (firstn (List.length data))
                (decode_utf8
                   (data ++ repeat x00 (BUFFER_SIZE - List.length data))) with
        | None => (DecodeRaises, pipe)
        | Some chunk =>
            if List.length data <? BUFFER_SIZE
            then (Break (chunks ++ [chunk]), pipe)
            else read_chunks pipe (chunks ++ [chunk])
        end
    end.
Proof.
  destruct ev as [|data]; [reflexivity|].
  cbn [read_chunks ReadFile negb].
  now destruct (decode_utf8
                  (data ++ repeat x00 (BUFFER_SIZE - List.length data))).
Qed.

(** A chunk that fills the buffer keeps the loop reading. *)
Lemma read_chunks_full (data : list byte) (pipe : list read_event)
      (chunks : list pystr) :
  bytes_ascii data = true ->
  List.length data = BUFFER_SIZE ->
  read_chunks (ReadGives data :: pipe) chunks
  = read_chunks pipe (chunks ++ [map Byte.to_N data]).
Proof.
  intros Ha Hl. rewrite read_chunks_unfold, chunk_of_ascii by exact Ha.
  rewrite Hl, Nat.ltb_irrefl. reflexivity.
Qed.

(** A chunk shorter than the buffer ends the message. *)
Lemma read_chunks_short (data : list byte) (pipe : list read_event)
      (chunks : list pystr) :
  bytes_ascii data = true ->
  List.length data < BUFFER_SIZE ->
  read_chunks (ReadGives data :: pipe) chunks
  = (Break (chunks ++ [map Byte.to_N data]), pipe).
Proof.
  intros Ha Hl. rewrite read_chunks_unfold, chunk_of_ascii by exact Ha.
  apply Nat.ltb_lt in Hl. rewrite Hl. reflexivity.
Qed.

(** An ASCII message sent as full chunks and a last short one is read as
    the text of its bytes, in their order; as long as the short chunk has
    not come, [read_command] waits, even if the message is complete. *)
Lemma read_chunks_ascii_message (fulls : list (list byte)) (last : list byte)
      (pipe : list read_event) (chunks : list pystr) :
  Forall (fun data => bytes_ascii data = true
                      /\ List.length data = BUFFER_SIZE) fulls ->
  (read_chunks (map ReadGives fulls) chunks = (Waits, []))
  /\ (bytes_ascii last = true ->
      List.length last < BUFFER_SIZE ->
      exists texts,
        read_chunks (map ReadGives fulls ++ ReadGives last :: pipe) chunks
        = (Break (chunks ++ texts), pipe)
        /\ List.concat texts = map Byte.to_N (List.concat fulls ++ last)).
Proof.
  intros Hf. revert chunks.
  induction Hf as [|data fulls [Ha Hl] _ IH]; intros chunks.
  - split; [reflexivity|]. intros Ha Hl. exists [map Byte.to_N last].
    cbn [map app]. rewrite read_chunks_short by assumption.
    split; [reflexivity|]. cbn [List.concat app]. now rewrite app_nil_r.
  - destruct (IH (chunks ++ [map Byte.to_N data])) as [IHw IHb].
    split.
    + cbn [map]. now rewrite read_chunks_full.
    + intros Hla Hll. destruct (IHb Hla Hll) as (texts & Hr & Hc).
      exists (map Byte.to_N data :: texts). cbn [map app].
      rewrite read_chunks_full, Hr, <- app_assoc by assumption.
      split; [reflexivity|].
      cbn [List.concat]. rewrite Hc, <- app_assoc, !map_app. reflexivity.
Qed.

(** Every exit of the reading loop but the wait has taken a [ReadFile]
    from the pipe. *)
Lemma read_chunks_consumes (pipe : list read_event) (chunks : list pystr) :
  match read_chunks pipe chunks with
  | (Waits, _) => True
  | (_, rest) => List.length rest < List.length pipe
  end.
Proof.
  revert chunks. induction pipe as [|ev pipe IH]; intros chunks;
    [exact I|].
  rewrite read_chunks_unfold.
  destruct ev as [|data]; [simpl; lia|].
  destruct (option_map _ _) as [chunk|]; [|simpl; lia].
  destruct (List.length data <? BUFFER_SIZE); [simpl; lia|].
  specialize (IH (chunks ++ [chunk])).
  destruct (read_chunks pipe (chunks ++ [chunk])) as [[]]; simpl; try lia;
    exact I.
Qed.

Lemma read_command_consumes (st st' : state) (v : pyval) :
  read_command st = Some (v, st') ->
  List.length (pipe_in st') < List.length (pipe_in st).
Proof.
  unfold read_command.
  pose proof (read_chunks_consumes (pipe_in st) []) as Hc.
  destruct (read_chunks (pipe_in st) []) as [[chunks| | |] pipe];
    try discriminate.
  - destruct (json_loads (List.concat chunks)) as [command|[]];
      intros H; inversion H; subst; exact Hc.
  - intros H; inversion H; subst; exact Hc.
  - intros H; inversion H; subst; exact Hc.
Qed.

(** [main] never runs out of fuel: the fuel it takes covers every
    [ReadFile] the pipe holds. *)
Lemma main_loop_fuel (fuel : nat) (st : state) :
  List.length (pipe_in st) < fuel ->
  fst (main_loop fuel st) <> OutOfFuel.
Proof.
  revert st. induction fuel as [|fuel IH]; intros st Hlen; [lia|].
  rewrite main_loop_step.
  destruct (read_command st) as [[command st1]|] eqn:Hread; [|discriminate].
  apply read_command_consumes in Hread.
  assert (Hnone : fst (main_loop fuel
                         (logging ERROR (lit "Error reading command") None st1))
                  <> OutOfFuel).
  { apply IH. simpl. lia. }
  unfold serve.
  destruct (py_get command (lit "tool_calls") (PList [])) as [tool_calls|e];
    [|destruct command; try discriminate; exact Hnone].
  destruct (py_iter tool_calls) as [items|e];
    [|destruct command; try discriminate; exact Hnone].
  pose proof (for_tool_calls_pipe_in items st1) as Hin.
  destruct (for_tool_calls items st1) as [st2|st2|e st2];
    destruct command; try discriminate; try exact Hnone;
    apply IH; rewrite Hin; lia.
Qed.

Lemma main_returns (st : state) : fst (main st) <> OutOfFuel.
Proof. unfold main. apply main_loop_fuel. simpl. lia. Qed.

(** *** The chunk taken from the buffer, in general *)

Ltac decode_tail IH r :=
  let E := fresh "E" in
  let t := fresh "t" in
  destruct (decode_utf8 r) as [t|] eqn:E; [|discriminate];
  match goal with
  | H : option_map _ (Some _) = Some _ |- _ =>
      simpl in H; inversion H; subst; clear H
  end;
  rewrite (IH r _ t) by (simpl in *; try lia; assumption);
  match goal with
  | |- context [decode_utf8 ?b] => destruct (decode_utf8 b); reflexivity
  end.

Lemma decode_utf8_app_aux (n : nat) :
  forall (a b : list byte) (s : pystr),
    List.length a <= n ->
    decode_utf8 a = Some s ->
    decode_utf8 (a ++ b) = option_map (app s) (decode_utf8 b).
Proof.
  induction n as [|n IH]; intros a b s Hn H.
  - destruct a; [|simpl in Hn; lia]. inversion H. simpl.
    now destruct (decode_utf8 b).
  - destruct a as [|b0 r0].
    { inversion H. simpl. now destruct (decode_utf8 b). }
    cbn [decode_utf8 app] in *.
    destruct (Byte.to_N b0 <? 128)%N; [decode_tail IH r0|].
    destruct (Byte.to_N b0 <? 194)%N; [discriminate|].
    destruct (Byte.to_N b0 <? 224)%N.
    { destruct r0 as [|b1 r1]; [discriminate|]. cbn [app].
      destruct (in_range 128 191 (Byte.to_N b1)); [|discriminate].
      decode_tail IH r1. }
    destruct (Byte.to_N b0 <? 240)%N.
    { destruct r0 as [|b1 [|b2 r2]]; try discriminate. cbn [app].
      destruct (in_range _ _ (Byte.to_N b1) && in_range 128 191 (Byte.to_N b2));
        [|discriminate].
      decode_tail IH r2. }
    destruct (Byte.to_N b0 <? 245)%N; [|discriminate].
    destruct r0 as [|b1 [|b2 [|b3 r3]]]; try discriminate. cbn [app].
    destruct (in_range _ _ (Byte.to_N b1) && in_range 128 191 (Byte.to_N b2)
              && in_range 128 191 (Byte.to_N b3)); [|discriminate].
    decode_tail IH r3.
Qed.

Lemma decode_utf8_app (a b : list byte) (s : pystr) :
  decode_utf8 a = Some s ->
  decode_utf8 (a ++ b) = option_map (app s) (decode_utf8 b).
Proof. apply (decode_utf8_app_aux (List.length a)). lia. Qed.

Lemma decode_utf8_zeros (k : nat) :
  decode_utf8 (repeat x00 k) = Some (repeat 0%N k).
Proof.
  rewrite decode_utf8_ascii by apply bytes_ascii_zeros.
  now rewrite map_repeat.
Qed.

(** The buffer is decoded whole, zero bytes included, and only then cut
    at the byte count: the chunk is the text of the bytes read followed by
    as many NUL characters of the padding as the count lets in. *)
Lemma chunk_of_utf8 (data : list byte) (s : pystr) (k : nat) :
  decode_utf8 data = Some s ->
  option_map (firstn (List.length data)) (decode_utf8 (data ++ repeat x00 k))
  = Some (firstn (List.length data) (s ++ repeat 0%N k)).
Proof.
  intros H. rewrite (decode_utf8_app _ _ _ H), decode_utf8_zeros. reflexivity.
Qed.

(** ** Escaping and reading back a string *)

Lemma hex_value_digit (n : N) : (n < 16)%N -> hex_value (hex_digit n) = Some n.
Proof.
  intros H. unfold hex_value, hex_digit, in_range.
  destruct (n <? 10)%N eqn:E.
  - apply N.ltb_lt in E.
    replace ((48 <=? 48 + n) && (48 + n <=? 57))%N with true
      by (symmetry; apply andb_true_iff; split; apply N.leb_le; lia).
    f_equal. lia.
  - apply N.ltb_ge in E.
    replace ((48 <=? 87 + n) && (87 + n <=? 57))%N with false
      by (symmetry; apply andb_false_iff; right; apply N.leb_gt; lia).
    replace ((97 <=? 87 + n) && (87 + n <=? 102))%N with true
      by (symmetry; apply andb_true_iff; split; apply N.leb_le; lia).
    f_equal. lia.
Qed.

(** The four digits of [u_escape] read back as the code unit. *)
Lemma hex4_u_escape (c : N) :
  (c < 65536)%N ->
  hex4 (hex_digit ((c / 4096) mod 16)) (hex_digit ((c / 256) mod 16))
       (hex_digit ((c / 16) mod 16)) (hex_digit (c mod 16)) = Some c.
Proof.
  intros H. unfold hex4.
  rewrite !hex_value_digit by (apply N.mod_lt; discriminate).
  f_equal. zify. Z.to_euclidean_division_equations. lia.
Qed.

Lemma low_escape_ahead_other (c : N) (r : pystr) :
  (c =? BACKSLASH)%N = false -> low_escape_ahead (c :: r) = false.
Proof.
  intros H. unfold low_escape_ahead.
  destruct r as [|? [|? [|? [|? [|? ?]]]]]; try reflexivity.
  now rewrite H.
Qed.

Lemma low_escape_ahead_short (e : N) (r : pystr) :
  (e =? 117)%N = false -> low_escape_ahead (BACKSLASH :: e :: r) = false.
Proof.
  intros H. unfold low_escape_ahead.
  destruct r as [|? [|? [|? [|? ?]]]]; try reflexivity.
  now rewrite H, andb_false_r.
Qed.

Lemma low_escape_ahead_u (c : N) (r : pystr) :
  (c < 65536)%N ->
  low_escape_ahead (u_escape c ++ r) = is_low_surrogate c.
Proof.
  intros H. unfold u_escape. cbn [app low_escape_ahead].
  now rewrite hex4_u_escape.
Qed.

(** A [\uXXXX] that is not the first half of a pair is one character. *)
Lemma scanstring_u_single (u : N) (r : pystr) :
  (u < 65536)%N ->
  is_high_surrogate u && low_escape_ahead r = false ->
  scanstring (u_escape u ++ r) = push u (scanstring r).
Proof.
  intros Hu H. unfold u_escape. cbn [app scanstring].
  change (BACKSLASH =? QUOTE)%N with false.
  change (BACKSLASH =? BACKSLASH)%N with true.
  change (117 =? 117)%N with true. cbv iota.
  rewrite hex4_u_escape by exact Hu.
  destruct (is_high_surrogate u); [|reflexivity].
  simpl in H. unfold low_escape_ahead in H.
  destruct r as [|bs [|uu [|a2 [|b2 [|c2 [|d2 r4]]]]]]; try reflexivity.
  destruct ((bs =? BACKSLASH) && (uu =? 117))%N; [|reflexivity].
  simpl in H. destruct (hex4 a2 b2 c2 d2); [|discriminate].
  now rewrite H.
Qed.

(** The two escapes of a surrogate pair are one character. *)
Lemma scanstring_u_pair (hi lo : N) (r : pystr) :
  is_high_surrogate hi = true ->
  is_low_surrogate lo = true ->
  scanstring (u_escape hi ++ u_escape lo ++ r)
  = push (join_surrogates hi lo) (scanstring r).
Proof.
  intros Hhi Hlo.
  assert (Hh : (hi < 65536)%N).
  { unfold is_high_surrogate, in_range in Hhi.
    apply andb_true_iff in Hhi as [_ Hhi]. apply N.leb_le in Hhi. lia. }
  assert (Hl : (lo < 65536)%N).
  { unfold is_low_surrogate, in_range in Hlo.
    apply andb_true_iff in Hlo as [_ Hlo]. apply N.leb_le in Hlo. lia. }
  unfold u_escape. cbn [app scanstring].
  change (BACKSLASH =? QUOTE)%N with false.
  change (BACKSLASH =? BACKSLASH)%N with true.
  change (117 =? 117)%N with true. cbv iota.
  rewrite (hex4_u_escape hi Hh), Hhi.
  cbn [andb]. cbv iota.
  now rewrite (hex4_u_escape lo Hl), Hlo.
Qed.

Ltac range_facts :=
  repeat match goal with
         | H : in_range _ _ _ = true |- _ =>
             unfold in_range in H; apply andb_true_iff in H as [? ?]
         | H : in_range _ _ _ = false |- _ =>
             unfold in_range in H; apply andb_false_iff in H
         | H : (_ <=? _)%N = true |- _ => apply N.leb_le in H
         | H : (_ <=? _)%N = false |- _ => apply N.leb_gt in H
         | H : (_ <? _)%N = true |- _ => apply N.ltb_lt in H
         | H : (_ <? _)%N = false |- _ => apply N.ltb_ge in H
         | H : (_ =? _)%N = true |- _ => apply N.eqb_eq in H
         | H : (_ =? _)%N = false |- _ => apply N.eqb_neq in H
         end.

Lemma in_range_true (lo hi c : N) :
  (lo <= c)%N -> (c <= hi)%N -> in_range lo hi c = true.
Proof.
  intros. unfold in_range. apply andb_true_iff. split; now apply N.leb_le.
Qed.

Lemma in_range_false (lo hi c : N) :
  (c < lo)%N \/ (hi < c)%N -> in_range lo hi c = false.
Proof.
  intros H. unfold in_range. apply andb_false_iff.
  destruct H; [left|right]; now apply N.leb_gt.
Qed.

(** The halves [escape_char] writes for a code point above U+FFFF. *)
Lemma surrogate_halves (c : N) :
  (65536 <= c)%N -> (c < 1114112)%N ->
  let v := (c - 65536)%N in
  is_high_surrogate (55296 + (v / 1024) mod 1024) = true
  /\ is_low_surrogate (56320 + v mod 1024) = true
  /\ join_surrogates (55296 + (v / 1024) mod 1024) (56320 + v mod 1024) = c.
Proof.
  intros H1 H2 v. subst v. unfold is_high_surrogate, is_low_surrogate.
  repeat split.
  - apply in_range_true; zify; Z.to_euclidean_division_equations; lia.
  - apply in_range_true; zify; Z.to_euclidean_division_equations; lia.
  - unfold join_surrogates. zify. Z.to_euclidean_division_equations. lia.
Qed.

(** What [escape_char] writes for a character is read back as that
    character, unless it is a high surrogate and a low one follows. *)
Lemma scanstring_escape_char (c : N) (r : pystr) :
  (c < 1114112)%N ->
  is_high_surrogate c && low_escape_ahead r = false ->
  scanstring (escape_char c ++ r) = push c (scanstring r).
Proof.
  intros Hc Hpair. unfold escape_char.
  destruct (c =? QUOTE)%N eqn:E1; [apply N.eqb_eq in E1; now subst|].
  destruct (c =? BACKSLASH)%N eqn:E2; [apply N.eqb_eq in E2; now subst|].
  destruct (c =? 8)%N eqn:E3; [apply N.eqb_eq in E3; now subst|].
  destruct (c =? 12)%N eqn:E4; [apply N.eqb_eq in E4; now subst|].
  destruct (c =? 10)%N eqn:E5; [apply N.eqb_eq in E5; now subst|].
  destruct (c =? 13)%N eqn:E6; [apply N.eqb_eq in E6; now subst|].
  destruct (c =? 9)%N eqn:E7; [apply N.eqb_eq in E7; now subst|].
  destruct (in_range 32 126 c) eqn:E8.
  { cbn [app scanstring]. rewrite E1, E2.
    replace (c <? 32)%N with false; [reflexivity|].
    symmetry. apply N.ltb_ge. range_facts. assumption. }
  destruct (65536 <=? c)%N eqn:E9.
  { apply N.leb_le in E9.
    destruct (surrogate_halves c E9 Hc) as (Hhi & Hlo & Hjoin).
    rewrite <- app_assoc, scanstring_u_pair by assumption.
    cbv zeta in Hjoin. now rewrite Hjoin. }
  apply N.leb_gt in E9. now apply scanstring_u_single.
Qed.

Lemma low_escape_ahead_escape_char (c : N) (r : pystr) :
  (c < 1114112)%N ->
  low_escape_ahead (escape_char c ++ r) = is_low_surrogate c.
Proof.
  intros Hc. unfold escape_char.
  destruct (c =? QUOTE)%N eqn:E1;
    [apply N.eqb_eq in E1; subst; now apply low_escape_ahead_short|].
  destruct (c =? BACKSLASH)%N eqn:E2;
    [apply N.eqb_eq in E2; subst; now apply low_escape_ahead_short|].
  destruct (c =? 8)%N eqn:E3;
    [apply N.eqb_eq in E3; subst; now apply low_escape_ahead_short|].
  destruct (c =? 12)%N eqn:E4;
    [apply N.eqb_eq in E4; subst; now apply low_escape_ahead_short|].
  destruct (c =? 10)%N eqn:E5;
    [apply N.eqb_eq in E5; subst; now apply low_escape_ahead_short|].
  destruct (c =? 13)%N eqn:E6;
    [apply N.eqb_eq in E6; subst; now apply low_escape_ahead_short|].
  destruct (c =? 9)%N eqn:E7;
    [apply N.eqb_eq in E7; subst; now apply low_escape_ahead_short|].
  destruct (in_range 32 126 c) eqn:E8.
  { cbn [app]. rewrite (low_escape_ahead_other c r E2).
    symmetry. apply in_range_false. range_facts. left. lia. }
  destruct (65536 <=? c)%N eqn:E9.
  { apply N.leb_le in E9.
    destruct (surrogate_halves c E9 Hc) as (Hhi & Hlo & Hjoin).
    rewrite <- app_assoc, low_escape_ahead_u.
    - unfold is_high_surrogate in Hhi. range_facts.
      transitivity false; [|symmetry]; apply in_range_false; lia.
    - unfold is_high_surrogate in Hhi. range_facts. lia. }
  apply N.leb_gt in E9. now apply low_escape_ahead_u.
Qed.

Lemma text_ok_cons (c : N) (s : pystr) :
  text_ok (c :: s) = true ->
  (c < 1114112)%N
  /\ is_high_surrogate c
     && match s with c' :: _ => is_low_surrogate c' | [] => false end = false
  /\ text_ok s = true.
Proof.
  cbn [text_ok]. intros H.
  apply andb_true_iff in H as [H H3]. apply andb_true_iff in H as [H1 H2].
  apply N.ltb_lt in H1. apply negb_true_iff in H2. auto.
Qed.

(** Reading back an escaped string: the characters between the quotes
    come back as they were, and the text after the closing quote is left. *)
Lemma scanstring_escaped (s rest : pystr) :
  text_ok s = true ->
  scanstring (flat_map escape_char s ++ QUOTE :: rest) = Some (s, rest).
Proof.
  induction s as [|c s IH]; intros Hok; [reflexivity|].
  apply text_ok_cons in Hok as (Hc & Hpair & Hs).
  cbn [flat_map]. rewrite <- app_assoc, scanstring_escape_char.
  - now rewrite (IH Hs).
  - exact Hc.
  - destruct s as [|c' s'].
    + cbn [flat_map app]. rewrite low_escape_ahead_other by reflexivity.
      apply andb_false_r.
    + apply text_ok_cons in Hs as (Hc' & _ & _).
      cbn [flat_map]. rewrite <- app_assoc, low_escape_ahead_escape_char.
      * exact Hpair.
      * exact Hc'.
Qed.

(** ** A Result frame read back by the host *)

Lemma to_N_byte_of (c : N) : (c < 256)%N -> Byte.to_N (byte_of c) = c.
Proof.
  intros H. unfold byte_of.
  destruct (Byte.of_N c) as [b|] eqn:E.
  - now apply Byte.to_of_N.
  - apply Byte.of_N_None_iff in E. lia.
Qed.

Lemma decode_ascii_bytes (text : pystr) :
  is_ascii text = true -> decode_utf8 (ascii_bytes text) = Some text.
Proof.
  induction text as [|c text IH]; [reflexivity|].
  intros H. simpl in H. apply andb_true_iff in H as [Hc Ht].
  assert (Hb : Byte.to_N (byte_of c) = c).
  { apply to_N_byte_of. apply N.ltb_lt in Hc. lia. }
  unfold ascii_bytes in *. cbn [map decode_utf8].
  rewrite Hb, Hc, (IH Ht). reflexivity.
Qed.

(** *** The first terminator of a frame *)

Lemma starts_with_other (c : N) (s : pystr) :
  (c =? 60)%N = false -> starts_with END_MARKER (c :: s) = false.
Proof.
  intros H. unfold starts_with.
  change END_MARKER with (60%N :: lit "<END>>").
  cbn [strip_prefix]. rewrite N.eqb_sym, H. reflexivity.
Qed.

Lemma strip_terminator_other (c : N) (s : pystr) :
  (c =? 60)%N = false ->
  strip_terminator (c :: s) = option_map (cons c) (strip_terminator s).
Proof.
  intros H. cbn [strip_terminator]. now rewrite starts_with_other.
Qed.

Lemma strip_terminator_skip (a b : pystr) :
  no_angle a = true ->
  strip_terminator (a ++ b) = option_map (app a) (strip_terminator b).
Proof.
  induction a as [|c a IH]; intros H.
  - cbn [app]. destruct (strip_terminator b); reflexivity.
  - cbn [no_angle forallb] in H. apply andb_true_iff in H as [Hc Ha].
    apply negb_true_iff in Hc.
    cbn [app]. rewrite strip_terminator_other, (IH Ha) by exact Hc.
    destruct (strip_terminator b); reflexivity.
Qed.

Lemma hex_digit_no_angle (n : N) : (n < 16)%N -> (hex_digit n =? 60)%N = false.
Proof.
  intros H. unfold hex_digit. apply N.eqb_neq.
  destruct (n <? 10)%N eqn:E; [apply N.ltb_lt in E|apply N.ltb_ge in E]; lia.
Qed.

Lemma u_escape_no_angle (c : N) : no_angle (u_escape c) = true.
Proof.
  unfold u_escape, no_angle, forallb.
  rewrite !hex_digit_no_angle by (apply N.mod_lt; lia). reflexivity.
Qed.

Lemma no_angle_app (s t : pystr) :
  no_angle (s ++ t) = no_angle s && no_angle t.
Proof. apply forallb_app. Qed.

Lemma escape_char_no_angle (c : N) :
  (c =? 60)%N = false -> no_angle (escape_char c) = true.
Proof.
  intros H. unfold escape_char.
  repeat match goal with
         | |- context [if ?b then _ else _] => destruct b
         end;
    try reflexivity;
    try (rewrite no_angle_app, !u_escape_no_angle; reflexivity);
    try apply u_escape_no_angle.
  unfold no_angle, forallb. now rewrite H.
Qed.

(** An escape is the character itself or starts with a backslash. *)
Lemma escape_char_shape (c : N) :
  escape_char c = [c] \/ exists t, escape_char c = BACKSLASH :: t.
Proof.
  unfold escape_char, u_escape.
  repeat match goal with
         | |- context [if ?b then _ else _] => destruct b
         end; cbn [app]; eauto.
Qed.

Lemma starts_with_cons (x : N) (p : pystr) (c : N) (s : pystr) :
  starts_with (x :: p) (c :: s) = (x =? c)%N && starts_with p s.
Proof.
  unfold starts_with. cbn [strip_prefix]. now destruct (x =? c)%N.
Qed.

(** A plain pattern found at the head of an escaped text, before its
    closing quote, stands at the head of the text itself. *)
Lemma starts_with_escaped (p s rest : pystr) :
  is_plain p = true ->
  starts_with p (flat_map escape_char s ++ QUOTE :: rest) = true ->
  starts_with p s = true.
Proof.
  revert s. induction p as [|x p IH]; intros s Hp H.
  - now destruct s.
  - cbn [is_plain forallb] in Hp. apply andb_true_iff in Hp as [Hx Hp].
    apply andb_true_iff in Hx as [Hx Hb]. apply andb_true_iff in Hx as [_ Hq].
    apply negb_true_iff in Hq, Hb.
    destruct s as [|c s].
    + cbn [flat_map app] in H. rewrite starts_with_cons, Hq in H. discriminate.
    + cbn [flat_map] in H. rewrite <- app_assoc in H.
      destruct (escape_char_shape c) as [E|[t E]]; rewrite E in H;
        cbn [app] in H; rewrite starts_with_cons in H.
      * apply andb_true_iff in H as [Hc H].
        rewrite starts_with_cons, Hc. now apply IH.
      * rewrite Hb in H. discriminate.
Qed.

(** The escaped text of a message without the terminator holds none. *)
Lemma strip_terminator_escaped (m rest : pystr) :
  occurs END_MARKER m = false ->
  strip_terminator (flat_map escape_char m ++ QUOTE :: rest)
  = option_map (app (flat_map escape_char m))
               (strip_terminator (QUOTE :: rest)).
Proof.
  remember (strip_terminator (QUOTE :: rest)) as t eqn:Et.
  induction m as [|c m IH]; intros H.
  - cbn [flat_map app]. rewrite <- Et. destruct t; reflexivity.
  - cbn [occurs] in H. apply orb_false_iff in H as [Hhead Hm].
    specialize (IH Hm).
    destruct (c =? 60)%N eqn:Ec.
    + apply N.eqb_eq in Ec. subst c.
      change (flat_map escape_char (60%N :: m))
        with (60%N :: flat_map escape_char m) in *.
      cbn [app strip_terminator].
      destruct (starts_with END_MARKER
                  (60%N :: flat_map escape_char m ++ QUOTE :: rest)) eqn:E.
      * apply (starts_with_escaped END_MARKER (60%N :: m) rest eq_refl) in E.
        congruence.
      * rewrite IH. destruct t; reflexivity.
    + cbn [flat_map]. rewrite <- app_assoc.
      rewrite strip_terminator_skip by now apply escape_char_no_angle.
      rewrite IH. destruct t; cbn [option_map];
        [rewrite app_assoc|]; reflexivity.
Qed.

Lemma json_dumps_Result_message (success : bool) (m : pystr) :
  json_dumps (Result success (Some m))
  = (dq "{'success': " ++ (if success then lit "true" else lit "false")
       ++ dq ", 'message': '")
      ++ flat_map escape_char m ++ [QUOTE; 125%N].
Proof.
  rewrite json_dumps_Result. unfold encode_basestring_ascii.
  destruct success; cbn; now rewrite <- app_assoc.
Qed.

(** The JSON text of a Result ends at the first terminator of its frame. *)
Lemma strip_terminator_Result (success : bool) (message : option pystr) :
  match message with
  | Some m => occurs END_MARKER m = false
  | None => True
  end ->
  strip_terminator (json_dumps (Result success message) ++ END_MARKER)
  = Some (json_dumps (Result success message)).
Proof.
  destruct message as [m|]; intros H.
  - rewrite json_dumps_Result_message, <- !app_assoc.
    rewrite (app_assoc (dq "{'success': ")), (app_assoc (_ ++ _)).
    rewrite strip_terminator_skip by now destruct success.
    cbn [app]. rewrite strip_terminator_escaped by exact H.
    change (strip_terminator (QUOTE :: 125%N :: END_MARKER))
      with (Some [QUOTE; 125%N]).
    cbn [option_map]. now rewrite <- !app_assoc.
  - destruct success; reflexivity.
Qed.

Lemma scan_once_Result_message (success : bool) (m : pystr) (fuel : nat) :
  text_ok m = true ->
  scan_once (S (S (S (S fuel)))) (json_dumps (Result success (Some m)))
  = Some (Result success (Some m), []).
Proof.
  intros Hok. rewrite json_dumps_Result. unfold encode_basestring_ascii.
  destruct success; cbn; rewrite <- app_assoc; cbn [app];
    rewrite (scanstring_escaped m [125%N] Hok); reflexivity.
Qed.

(** [json.loads(json.dumps(r))] is [r] for a Result. *)
Lemma json_loads_dumps_Result (success : bool) (message : option pystr) :
  match message with Some m => text_ok m = true | None => True end ->
  json_loads_ref (json_dumps (Result success message))
  = Ok (Result success message).
Proof.
  destruct message as [m|]; intros Hok.
  - unfold json_loads_ref.
    assert (Hs : exists n tail,
               json_dumps (Result success (Some m)) = 123%N :: tail
               /\ List.length (json_dumps (Result success (Some m)))
                  = S (S (S n))).
    { rewrite json_dumps_Result. destruct success; cbn; eauto. }
    destruct Hs as (n & tail & Hhead & Hlen).
    replace (skip_ws (json_dumps (Result success (Some m))))
      with (json_dumps (Result success (Some m)))
      by (rewrite Hhead; reflexivity).
    rewrite Hlen, scan_once_Result_message by exact Hok. reflexivity.
  - destruct success; reflexivity.
Qed.

Lemma message_ok_parts (m : pystr) :
  message_ok m = true -> text_ok m = true /\ occurs END_MARKER m = false.
Proof.
  unfold message_ok. intros H. apply andb_true_iff in H as [H1 H2].
  now apply negb_true_iff in H2.
Qed.

Lemma decode_frame_Result (success : bool) (message : option pystr) :
  match message with Some m => message_ok m = true | None => True end ->
  decode_frame (frame (Result success message))
  = Some (Result success message).
Proof.
  intros Hok. unfold decode_frame, frame.
  rewrite decode_ascii_bytes
    by (now rewrite is_ascii_app, json_dumps_Result_ascii).
  rewrite strip_terminator_Result, json_loads_dumps_Result;
    [reflexivity| |]; destruct message as [m|]; trivial;
    now apply message_ok_parts in Hok.
Qed.

(** C8 (amended). The frame [write_response] writes for a Result, read
    back by taking the text before the first terminator and parsing it as
    JSON, is that Result: with or without a message, provided the message
    has no high surrogate code point directly followed by a low surrogate
    one and does not contain the terminator [<<END>>] itself. *)
Theorem result_round_trip
        (success : bool) (message : option pystr) (st : state) :
  match message with Some m => message_ok m = true | None => True end ->
  write_response (Result success message) st
  = WriteFile (frame (Result success message)) st
  /\ decode_frame (frame (Result success message))
     = Some (Result success message).
Proof.
  intros Hok. split.
  - apply write_response_Result.
  - now apply decode_frame_Result.
Qed.

(** ** Where the code leaves its own contract *)

(** The frame of a Result is its JSON text directly followed by the seven
    bytes of the terminator, and the [message] key is there only with a
    message. *)
Lemma frame_shape (success : bool) (message : option pystr) :
  frame (Result success message)
  = ascii_bytes (json_dumps (Result success message))
      ++ ascii_bytes (lit "<<END>>")
  /\ dict_lookup
       (match Result success message with PDict d => d | _ => [] end)
       (lit "message")
     = option_map PStr message.
Proof.
  split.
  - unfold frame, ascii_bytes. now rewrite map_app.
  - now destruct message.
Qed.

(** C3. The frame written for the Result of [initialize] is not the
    compact serialization the docstring of [write_response] and the
    specification show: [json.dumps] is called with its default
    separators, so a space follows the colon and the comma. *)
Theorem frame_is_not_compact (st : state) :
  pipe_out (write_response (fst (initialize st)) st)
  = pipe_out st
      ++ [ascii_bytes
            (dq "{'success': true, 'message': 'Plugin initialized successfully'}<<END>>")]
  /\ compact_frame (fst (initialize st))
     = ascii_bytes
         (dq "{'success':true,'message':'Plugin initialized successfully'}<<END>>")
  /\ frame (fst (initialize st)) <> compact_frame (fst (initialize st)).
Proof.
  split; [reflexivity|]. split; [reflexivity|].
  intros H. vm_compute in H. discriminate H.
Qed.

(** C7. [read_command] decodes the whole buffer and cuts the text at the
    byte count. On a message with a two-byte character the text handed to
    the JSON decoder is therefore not the decoded message: a NUL character
    of the padding follows it, and the decoder, which reads the message
    itself, rejects the text. *)
Theorem chunk_is_cut_at_the_byte_count
        (pipe : list read_event) (chunks : list pystr) :
  decode_utf8 accent_bytes = Some accent_text
  /\ List.length accent_bytes < BUFFER_SIZE
  /\ read_chunks (ReadGives accent_bytes :: pipe) chunks
     = (Break (chunks ++ [accent_text ++ [0%N]]), pipe)
  /\ json_loads_ref accent_text = Ok (PDict [(lit "a", PStr [233%N])])
  /\ json_loads_ref (accent_text ++ [0%N]) = Err JSONDecodeError.
Proof.
  split; [reflexivity|]. split; [vm_compute; lia|].
  split; [|split; reflexivity].
  rewrite read_chunks_unfold.
  rewrite (chunk_of_utf8 accent_bytes accent_text) by reflexivity.
  reflexivity.
Qed.

(** C2. Faults do leave [main]: a decoded command that is neither [None]
    nor a map, a [tool_calls] value that cannot be iterated and a
    tool-call entry that is not a map each raise an exception that nothing
    catches, and so does a handler fault; the process then dies without a
    shutdown. *)
Theorem faults_leave_main (fuel : nat) (st st1 : state) (command : pyval) :
  read_command st = Some (command, st1) ->
  (command <> PNone -> (forall d, command <> PDict d) ->
   main_loop (S fuel) st = (CRASHED AttributeError, st1))
  /\ (forall d tool_calls,
         command = PDict d ->
         dict_lookup d (lit "tool_calls") = Some tool_calls ->
         py_iter tool_calls = Err TypeError ->
         main_loop (S fuel) st = (CRASHED TypeError, st1))
  /\ (forall d entry rest,
         command = PDict d ->
         dict_lookup d (lit "tool_calls") = Some (PList (entry :: rest)) ->
         (forall e, entry <> PDict e) ->
         main_loop (S fuel) st = (CRASHED AttributeError, st1))
  /\ (forall d entry rest prompt e w,
         command = PDict d ->
         dict_lookup d (lit "tool_calls") = Some (PList (PDict entry :: rest)) ->
         func_of entry = PStr (lit "describe_screen") ->
         py_get (params_of entry) (lit "prompt") PNone = Ok prompt ->
         truthy prompt = true ->
         screen_query prompt (world st1) = (QueryRaises e, w) ->
         main_loop (S fuel) st = (CRASHED e, set_world w st1)).
Proof.
  intros Hread. rewrite main_loop_step, Hread. unfold serve.
  repeat split.
  - intros Hnone Hdict.
    destruct command; try reflexivity; [now destruct Hnone|now destruct (Hdict d)].
  - intros d tool_calls -> Hcalls Hiter. unfold py_get.
    now rewrite Hcalls, Hiter.
  - intros d entry rest -> Hcalls Hentry. unfold py_get. rewrite Hcalls.
    cbn [py_iter for_tool_calls].
    now rewrite (for_body_not_dict entry st1 Hentry).
  - intros d entry rest prompt e w -> Hcalls Hfunc Hprompt Htruthy Hquery.
    unfold py_get at 1. rewrite Hcalls. cbn [py_iter for_tool_calls].
    rewrite for_body_dict, Hfunc.
    change (eq_str (PStr (lit "describe_screen")) (lit "initialize")) with false.
    change (eq_str (PStr (lit "describe_screen")) (lit "describe_screen"))
      with true.
    cbv iota. unfold describe_screen.
    now rewrite Hprompt, Htruthy, Hquery.
Qed.

(** * Further properties of the code *)

(** ** The frames on the output pipe *)

Lemma is_printable_app (s t : pystr) :
  is_printable (s ++ t) = is_printable s && is_printable t.
Proof. apply forallb_app. Qed.

Lemma hex_digit_printable (n : N) :
  (n < 16)%N -> in_range 32 126 (hex_digit n) = true.
Proof.
  intros H. unfold hex_digit. apply in_range_true;
    destruct (n <? 10)%N; lia.
Qed.

Lemma u_escape_printable (c : N) : is_printable (u_escape c) = true.
Proof.
  unfold u_escape, is_printable, forallb.
  rewrite !hex_digit_printable by (apply N.mod_lt; discriminate).
  reflexivity.
Qed.

Lemma escape_char_printable (c : N) : is_printable (escape_char c) = true.
Proof.
  unfold escape_char.
  repeat match goal with
         | |- context [if ?b then _ else _] => destruct b eqn:?
         end;
    try reflexivity;
    try (rewrite is_printable_app, !u_escape_printable; reflexivity);
    try apply u_escape_printable.
  unfold is_printable, forallb.
  match goal with H : in_range 32 126 c = true |- _ => now rewrite H end.
Qed.

Lemma escaped_printable (s : pystr) :
  is_printable (flat_map escape_char s) = true.
Proof.
  induction s as [|c s IH]; [reflexivity|].
  cbn [flat_map]. now rewrite is_printable_app, escape_char_printable, IH.
Qed.

Lemma json_dumps_Result_printable (success : bool) (message : option pystr) :
  is_printable (json_dumps (Result success message)) = true.
Proof.
  rewrite json_dumps_Result. unfold encode_basestring_ascii.
  destruct success, message as [m|];
    repeat (rewrite is_printable_app || cbn [app is_printable forallb]);
    rewrite ?escaped_printable; reflexivity.
Qed.

Lemma ascii_bytes_printable (s : pystr) :
  is_printable s = true ->
  Forall (fun b => (32 <= Byte.to_N b <= 126)%N) (ascii_bytes s).
Proof.
  induction s as [|c s IH]; intros H; [constructor|].
  cbn [is_printable forallb] in H. apply andb_true_iff in H as [Hc Hs].
  unfold ascii_bytes. cbn [map]. constructor.
  - range_facts. rewrite to_N_byte_of by lia. lia.
  - now apply IH.
Qed.

(** What a Result frame looks like on the wire. *)
Lemma result_frame_shape (bytes : list byte) :
  result_frame bytes ->
  Forall (fun b => (32 <= Byte.to_N b <= 126)%N) bytes
  /\ exists payload, bytes = payload ++ ascii_bytes END_MARKER.
Proof.
  intros (success & message & _ & ->). split.
  - apply ascii_bytes_printable.
    now rewrite is_printable_app, json_dumps_Result_printable.
  - exists (ascii_bytes (json_dumps (Result success message))).
    unfold frame, ascii_bytes. now rewrite map_app.
Qed.

(** Every response comes from [generate_response]: it is a Result, and
    its message, if it has one, is not empty. *)
Lemma generate_response_is_Result (success : bool) (m : pystr) :
  exists message,
    message <> Some [] /\ generate_response success (PStr m) = Result success message.
Proof.
  destruct m as [|c m].
  - exists None. split; [discriminate|reflexivity].
  - exists (Some (c :: m)). split; [discriminate|reflexivity].
Qed.

Lemma describe_screen_is_Result (params : pyval) (w w' : World) (r : pyval) :
  describe_screen params w = (Ok r, w') ->
  exists success message, message <> Some [] /\ r = Result success message.
Proof.
  unfold describe_screen.
  destruct (py_get params (lit "prompt") PNone) as [prompt|e]; [|discriminate].
  destruct (negb (truthy prompt)).
  - intros H. inversion H; subst. exists false.
    apply generate_response_is_Result.
  - destruct (screen_query prompt w) as [[text| |e] w0]; intros H;
      inversion H; subst.
    + exists true. apply generate_response_is_Result.
    + exists false. apply generate_response_is_Result.
Qed.

Lemma result_frame_known (success : bool) (m : pystr) :
  m <> [] -> result_frame (frame (Result success (Some m))).
Proof.
  intros H. exists success, (Some m). split; [congruence|reflexivity].
Qed.

(** One entry, whatever it is, puts at most one frame on the pipe, and
    that frame is the frame of a Result. *)
Lemma for_body_frames (tool_call : pyval) (st : state) :
  exists frames,
    pipe_out (flow_state (for_body tool_call st)) = pipe_out st ++ frames
    /\ List.length frames <= 1
    /\ Forall result_frame frames.
Proof.
  destruct tool_call as [| | | | | |d];
    try solve [exists []; cbn; rewrite app_nil_r; repeat split; auto].
  rewrite for_body_dict.
  destruct (eq_str (func_of d) (lit "initialize")).
  { exists [frame initialized_result]. repeat split; auto.
    constructor; [|constructor]. now apply result_frame_known. }
  destruct (eq_str (func_of d) (lit "describe_screen")).
  { destruct (describe_screen (params_of d) (world st)) as [[r|e] w] eqn:E.
    - destruct (describe_screen_is_Result _ _ _ _ E)
        as (success & message & Hm & ->).
      rewrite write_response_Result.
      exists [frame (Result success message)]. repeat split; auto.
      constructor; [|constructor]. now exists success, message.
    - exists []. cbn. rewrite app_nil_r. repeat split; auto. }
  destruct (eq_str (func_of d) (lit "shutdown")).
  { exists [frame shutdown_result]. repeat split; auto.
    constructor; [|constructor]. now apply result_frame_known. }
  exists [frame unknown_result]. repeat split; auto.
  constructor; [|constructor]. now apply result_frame_known.
Qed.

(** X1. Whatever the entries of [tool_calls] are, valid or not, the [for]
    loop of [main] puts at most one frame per entry on the output pipe,
    also when it ends early on a shutdown or on an exception, and each of
    these frames is the frame of a Result. *)
Theorem at_most_one_frame_per_entry (items : list pyval) (st : state) :
  exists frames,
    pipe_out (flow_state (for_tool_calls items st)) = pipe_out st ++ frames
    /\ List.length frames <= List.length items
    /\ Forall result_frame frames.
Proof.
  revert st. induction items as [|tc rest IH]; intros st.
  - exists []. cbn. rewrite app_nil_r. repeat split; auto.
  - destruct (for_body_frames tc st) as (fs & Hout & Hlen & Hall).
    cbn [for_tool_calls].
    destruct (for_body tc st) as [st1|st1|e st1]; cbn [flow_state] in Hout.
    + destruct (IH st1) as (gs & Hout2 & Hlen2 & Hall2).
      exists (fs ++ gs). rewrite Hout2, Hout, app_assoc.
      split; [reflexivity|]. split.
      * rewrite length_app. cbn [List.length]. lia.
      * now apply Forall_app.
    + exists fs. cbn [flow_state List.length]. repeat split; auto. lia.
    + exists fs. cbn [flow_state List.length]. repeat split; auto. lia.
Qed.

(** X2. Whatever comes in on the input pipe and however [main] ends, every
    frame it has written is the frame of a Result: printable ASCII bytes
    only (no line break, no byte above 126) that end with the
    terminator. *)
Theorem written_frames_are_results
        (fuel : nat) (st st' : state) (exit : main_exit) :
  main_loop fuel st = (exit, st') ->
  exists frames,
    pipe_out st' = pipe_out st ++ frames
    /\ Forall (fun bytes =>
                 result_frame bytes
                 /\ Forall (fun b => (32 <= Byte.to_N b <= 126)%N) bytes
                 /\ exists payload, bytes = payload ++ ascii_bytes END_MARKER)
              frames.
Proof.
  assert (Hshape : forall frames,
             Forall result_frame frames ->
             Forall (fun bytes =>
                       result_frame bytes
                       /\ Forall (fun b => (32 <= Byte.to_N b <= 126)%N) bytes
                       /\ exists payload,
                            bytes = payload ++ ascii_bytes END_MARKER)
                    frames).
  { intros frames H. eapply Forall_impl; [|exact H].
    intros bytes Hb. split; [exact Hb|]. now apply result_frame_shape. }
  enough (Hmain : forall fuel st st' exit,
             main_loop fuel st = (exit, st') ->
             exists frames,
               pipe_out st' = pipe_out st ++ frames
               /\ Forall result_frame frames).
  { intros H. destruct (Hmain _ _ _ _ H) as (frames & Hout & Hall).
    exists frames. split; [exact Hout|]. now apply Hshape. }
  clear fuel st st' exit Hshape.
  induction fuel as [|fuel IH]; intros st st' exit H.
  { inversion H; subst. exists []. now rewrite app_nil_r. }
  rewrite main_loop_step in H.
  destruct (read_command st) as [[command st1]|] eqn:Hread.
  2:{ inversion H; subst. exists []. cbn. now rewrite app_nil_r. }
  apply read_command_pipe_out in Hread as [Hsame _]. rewrite <- Hsame.
  assert (Hnone : main_loop fuel
                    (logging ERROR (lit "Error reading command") None st1)
                  = (exit, st') ->
                  exists frames,
                    pipe_out st' = pipe_out st1 ++ frames
                    /\ Forall result_frame frames).
  { intros H'. apply IH in H'. exact H'. }
  assert (Hstay : (exit, st') = (exit, st') ->
                  forall e, (CRASHED e, st1) = (exit, st') ->
                  exists frames,
                    pipe_out st' = pipe_out st1 ++ frames
                    /\ Forall result_frame frames).
  { intros _ e He. inversion He; subst. exists []. now rewrite app_nil_r. }
  unfold serve in H.
  destruct (py_get command (lit "tool_calls") (PList [])) as [tool_calls|e];
    [|destruct command; eauto].
  destruct (py_iter tool_calls) as [items|e];
    [|destruct command; eauto].
  destruct (at_most_one_frame_per_entry items st1) as (fs & Hout & _ & Hall).
  destruct (for_tool_calls items st1) as [st2|st2|e st2];
    cbn [flow_state] in Hout.
  - assert (Hgo : main_loop fuel st2 = (exit, st') ->
                  exists frames,
                    pipe_out st' = pipe_out st1 ++ frames
                    /\ Forall result_frame frames).
    { intros H'. apply IH in H' as (gs & Hout2 & Hall2).
      exists (fs ++ gs). rewrite Hout2, Hout, app_assoc.
      split; [reflexivity|now apply Forall_app]. }
    destruct command; eauto.
  - assert (Hret : (STOPPED, st2) = (exit, st') ->
                   exists frames,
                     pipe_out st' = pipe_out st1 ++ frames
                     /\ Forall result_frame frames).
    { intros H'. inversion H'; subst. exists fs. now split. }
    destruct command; eauto.
  - assert (Hret : (CRASHED e, st2) = (exit, st') ->
                   exists frames,
                     pipe_out st' = pipe_out st1 ++ frames
                     /\ Forall result_frame frames).
    { intros H'. inversion H'; subst. exists fs. now split. }
    destruct command; eauto.
Qed.

(** X3. A response built by [generate_response] is never lost in
    [write_response]: whatever the message holds (control characters,
    characters outside ASCII, lone surrogates), the JSON text is ASCII, so
    encoding it cannot fail; exactly one frame is written and nothing is
    logged. *)
Theorem response_is_always_written
        (success : bool) (message : pyval) (st : state) :
  message = PNone \/ (exists m, message = PStr m) ->
  write_response (generate_response success message) st
  = WriteFile (frame (generate_response success message)) st
  /\ log_file (write_response (generate_response success message) st)
     = log_file st
  /\ pipe_out (write_response (generate_response success message) st)
     = pipe_out st ++ [frame (generate_response success message)].
Proof.
  intros H.
  assert (Hw : write_response (generate_response success message) st
               = WriteFile (frame (generate_response success message)) st).
  { destruct H as [-> | [m ->]].
    - rewrite generate_response_None. apply write_response_Result.
    - apply write_response_generate. }
  rewrite Hw. repeat split.
Qed.

Lemma set_world_same (st : state) : set_world (world st) st = st.
Proof. now destruct st. Qed.

(** X4. [describe_screen] asks for a prompt that is true: a parameter map
    without [prompt], or whose [prompt] is null, false, zero, an empty
    string, list or map, is answered with the failure
    "Missing required parameter: prompt" before anything is done: the
    world (screen, network, configuration) is left as it was, and the body
    of the loop writes the frame of that failure and goes on. *)
Theorem falsy_prompt_is_missing
        (d p : list (pystr * pyval)) (st : state) :
  func_of d = PStr (lit "describe_screen") ->
  params_of d = PDict p ->
  dict_lookup p (lit "prompt") = None
  \/ (exists v, dict_lookup p (lit "prompt") = Some v /\ truthy v = false) ->
  let failure := Result false (Some (lit "Missing required parameter: prompt")) in
  describe_screen (PDict p) (world st) = (Ok failure, world st)
  /\ for_body (PDict d) st = Continue (WriteFile (frame failure) st).
Proof.
  intros Hfunc Hparams Hprompt failure.
  assert (Hd : describe_screen (PDict p) (world st) = (Ok failure, world st)).
  { unfold describe_screen, py_get.
    destruct Hprompt as [-> | (v & -> & Hv)]; [reflexivity|].
    now rewrite Hv. }
  split; [exact Hd|].
  rewrite for_body_dict, Hfunc, Hparams, Hd.
  change (eq_str (PStr (lit "describe_screen")) (lit "initialize")) with false.
  change (eq_str (PStr (lit "describe_screen")) (lit "describe_screen"))
    with true.
  cbv iota. unfold failure.
  now rewrite write_response_Result, set_world_same.
Qed.

Lemma escape_plain (m : pystr) :
  is_plain m = true -> flat_map escape_char m = m.
Proof.
  induction m as [|c m IH]; intros H; [reflexivity|].
  cbn [is_plain forallb] in H. apply andb_true_iff in H as [Hc Hm].
  apply andb_true_iff in Hc as [Hc Hb]. apply andb_true_iff in Hc as [Hr Hq].
  apply negb_true_iff in Hq, Hb.
  cbn [flat_map]. rewrite (IH Hm). unfold escape_char. rewrite Hq, Hb, Hr.
  assert (H32 : (32 <= c)%N) by (range_facts; assumption).
  replace (c =? 8)%N with false by (symmetry; apply N.eqb_neq; lia).
  replace (c =? 12)%N with false by (symmetry; apply N.eqb_neq; lia).
  replace (c =? 10)%N with false by (symmetry; apply N.eqb_neq; lia).
  replace (c =? 13)%N with false by (symmetry; apply N.eqb_neq; lia).
  replace (c =? 9)%N with false by (symmetry; apply N.eqb_neq; lia).
  reflexivity.
Qed.

(** X5. A message of printable ASCII characters other than the quote and
    the backslash goes into the frame as it is, between the quotes of the
    [message] value. The terminator is made of such characters and is not
    escaped: a message that holds [<<END>>] gives a frame in which the
    terminator also occurs before the end. *)
Theorem plain_message_is_verbatim (success : bool) (m : pystr) :
  is_plain m = true ->
  m <> [] ->
  let head :=
    ascii_bytes (dq "{'success': "
                   ++ (if success then lit "true" else lit "false")
                   ++ dq ", 'message': '") in
  frame (generate_response success (PStr m))
  = head ++ ascii_bytes m ++ ascii_bytes (dq "'}<<END>>")
  /\ (forall before after,
         m = before ++ END_MARKER ++ after ->
         frame (generate_response success (PStr m))
         = (head ++ ascii_bytes before) ++ ascii_bytes END_MARKER
             ++ (ascii_bytes after ++ ascii_bytes (dq "'}<<END>>"))).
Proof.
  intros Hplain Hne head.
  assert (Hframe : frame (generate_response success (PStr m))
                   = head ++ ascii_bytes m ++ ascii_bytes (dq "'}<<END>>")).
  { rewrite generate_response_str. destruct m as [|c m]; [congruence|].
    unfold frame. rewrite json_dumps_Result. unfold encode_basestring_ascii.
    rewrite (escape_plain (c :: m) Hplain).
    unfold head, ascii_bytes. destruct success;
      repeat (rewrite map_app || rewrite <- app_assoc || cbn [app map]);
      reflexivity. }
  split; [exact Hframe|].
  intros before after ->. rewrite Hframe. unfold ascii_bytes.
  rewrite !map_app, <- !app_assoc. reflexivity.
Qed.

(** ** What [read_command] makes of the bytes *)

(** X6. An ASCII message that comes as any number of full buffers and a
    last read shorter than the buffer (possibly empty) is handed to
    [json.loads] as the text of its bytes, in their order, and the decoded
    command is returned with the raw text logged; as long as only full
    buffers have come, [read_command] does not return. *)
Theorem ascii_message_is_read
        (st : state) (fulls : list (list byte)) (last : list byte)
        (rest : list read_event) :
  Forall (fun data => bytes_ascii data = true
                      /\ List.length data = BUFFER_SIZE) fulls ->
  bytes_ascii last = true ->
  List.length last < BUFFER_SIZE ->
  let text := map Byte.to_N (List.concat fulls ++ last) in
  (pipe_in st = map ReadGives fulls -> read_command st = None)
  /\ (pipe_in st = map ReadGives fulls ++ ReadGives last :: rest ->
      forall command,
        json_loads text = Ok command ->
        read_command st
        = Some (command,
                logging INFO (lit "Raw Input: " ++ text) None
                  (set_pipe_in rest st))).
Proof.
  intros Hfulls Hascii Hshort text.
  destruct (read_chunks_ascii_message fulls last rest [] Hfulls)
    as [Hwait Hread].
  split.
  - intros Hpipe. unfold read_command. now rewrite Hpipe, Hwait.
  - intros Hpipe command Hjson.
    destruct (Hread Hascii Hshort) as (texts & Hchunks & Hconcat).
    unfold read_command. rewrite Hpipe, Hchunks. cbn [app].
    rewrite Hconcat. fold text. now rewrite Hjson.
Qed.

Lemma decode_utf8_length_aux (n : nat) :
  forall (data : list byte) (s : pystr),
    List.length data <= n ->
    decode_utf8 data = Some s ->
    List.length s <= List.length data.
Proof.
  induction n as [|n IH]; intros data s Hn H.
  - destruct data; [|simpl in Hn; lia]. inversion H. simpl. lia.
  - destruct data as [|b0 r0]; [inversion H; simpl; lia|].
    cbn [decode_utf8] in H.
    assert (Htail : forall (r : list byte) (c : N),
               List.length r <= n ->
               option_map (cons c) (decode_utf8 r) = Some s ->
               List.length s <= List.length r + 1).
    { intros r c Hr Hd. destruct (decode_utf8 r) as [t|] eqn:E;
        [|discriminate].
      simpl in Hd. inversion Hd; subst. apply (IH r t Hr) in E.
      simpl. lia. }
    destruct (Byte.to_N b0 <? 128)%N.
    { apply Htail in H; simpl in *; lia. }
    destruct (Byte.to_N b0 <? 194)%N; [discriminate|].
    destruct (Byte.to_N b0 <? 224)%N.
    { destruct r0 as [|b1 r1]; [discriminate|].
      destruct (in_range 128 191 (Byte.to_N b1)); [|discriminate].
      apply Htail in H; simpl in *; lia. }
    destruct (Byte.to_N b0 <? 240)%N.
    { destruct r0 as [|b1 [|b2 r2]]; try discriminate.
      destruct (in_range _ _ (Byte.to_N b1) && in_range 128 191 (Byte.to_N b2));
        [|discriminate].
      apply Htail in H; simpl in *; lia. }
    destruct (Byte.to_N b0 <? 245)%N; [|discriminate].
    destruct r0 as [|b1 [|b2 [|b3 r3]]]; try discriminate.
    destruct (in_range _ _ (Byte.to_N b1) && in_range 128 191 (Byte.to_N b2)
              && in_range 128 191 (Byte.to_N b3)); [|discriminate].
    apply Htail in H; simpl in *; lia.
Qed.

Lemma decode_utf8_length (data : list byte) (s : pystr) :
  decode_utf8 data = Some s -> List.length s <= List.length data.
Proof. apply (decode_utf8_length_aux (List.length data)). lia. Qed.

Lemma firstn_repeat (A : Type) (x : A) (n k : nat) :
  firstn n (repeat x k) = repeat x (Nat.min n k).
Proof.
  revert k. induction n as [|n IH]; intros k; [reflexivity|].
  destruct k as [|k]; [reflexivity|]. cbn. now rewrite IH.
Qed.

(** X7. [read_command] decodes the whole buffer and cuts the text at the
    count of bytes read. For a short read of valid UTF-8 the chunk is thus
    the text of the bytes followed by NUL characters of the padding, one
    for every byte a multi-byte character takes beyond its first (as far
    as the padding goes): the chunk is the text of the bytes exactly when
    no character takes more than one byte. *)
Theorem chunk_keeps_padding
        (data : list byte) (s : pystr) (pipe : list read_event)
        (chunks : list pystr) :
  decode_utf8 data = Some s ->
  List.length data < BUFFER_SIZE ->
  let extra := Nat.min (List.length data - List.length s)
                       (BUFFER_SIZE - List.length data) in
  read_chunks (ReadGives data :: pipe) chunks
  = (Break (chunks ++ [s ++ repeat 0%N extra]), pipe)
  /\ (extra = 0 <-> List.length s = List.length data).
Proof.
  intros Hs Hshort extra.
  pose proof (decode_utf8_length data s Hs) as Hlen.
  split.
  - rewrite read_chunks_unfold, (chunk_of_utf8 data s _ Hs).
    apply Nat.ltb_lt in Hshort as Hb. rewrite Hb.
    rewrite firstn_app, firstn_repeat, firstn_all2 by exact Hlen.
    reflexivity.
  - unfold extra. lia.
Qed.

Lemma decode_utf8_cut (lead : byte) (k : nat) :
  (128 <= Byte.to_N lead)%N ->
  decode_utf8 (lead :: repeat x00 k) = None.
Proof.
  intros H. cbn [decode_utf8].
  replace (Byte.to_N lead <? 128)%N with false
    by (symmetry; apply N.ltb_ge; exact H).
  destruct k as [|[|[|k]]]; cbn [repeat];
    repeat match goal with
           | |- context [(Byte.to_N lead <? ?x)%N] =>
               destruct (Byte.to_N lead <? x)%N
           | |- context [(Byte.to_N lead =? ?x)%N] =>
               destruct (Byte.to_N lead =? x)%N
           end; reflexivity.
Qed.

(** The first bytes of a character, when the padding of the buffer stands
    where its last bytes should, are not UTF-8. *)
Lemma decode_utf8_is_cut (cut : list byte) (k : nat) :
  is_cut cut = true -> decode_utf8 (cut ++ repeat x00 k) = None.
Proof.
  destruct cut as [|lead more]; [discriminate|].
  unfold is_cut, char_bytes. intros H.
  apply andb_true_iff in H as [Hlead Hlen].
  apply N.leb_le in Hlead. apply Nat.ltb_lt in Hlen.
  assert (E1 : (Byte.to_N lead <? 128)%N = false) by (apply N.ltb_ge; lia).
  assert (E2 : (Byte.to_N lead <? 194)%N = false) by (apply N.ltb_ge; lia).
  cbn zeta in Hlen. rewrite E1, E2 in Hlen.
  destruct more as [|b1 [|b2 [|b3 more]]]; cbn [List.length] in Hlen.
  - apply decode_utf8_cut. lia.
  - cbn [app decode_utf8]. rewrite E1, E2.
    destruct (Byte.to_N lead <? 224)%N; [lia|].
    destruct (Byte.to_N lead <? 240)%N.
    + destruct k as [|k]; [reflexivity|]. cbn [repeat].
      change (in_range 128 191 (Byte.to_N x00)) with false.
      now rewrite andb_false_r.
    + destruct (Byte.to_N lead <? 245)%N; [|reflexivity].
      destruct k as [|[|k]]; try reflexivity. cbn [repeat].
      change (in_range 128 191 (Byte.to_N x00)) with false.
      now rewrite andb_false_r.
  - cbn [app decode_utf8]. rewrite E1, E2.
    destruct (Byte.to_N lead <? 224)%N; [lia|].
    destruct (Byte.to_N lead <? 240)%N; [lia|].
    destruct (Byte.to_N lead <? 245)%N; [|reflexivity].
    destruct k as [|k]; [reflexivity|]. cbn [repeat].
    change (in_range 128 191 (Byte.to_N x00)) with false.
    now rewrite andb_false_r.
  - repeat match type of Hlen with
           | context [if ?b then _ else _] => destruct b
           end; lia.
Qed.

(** Reads that fill the buffer with whole characters keep the loop
    reading. *)
Lemma read_chunks_fulls (fulls : list (list byte)) :
  Forall (fun data => (exists text, decode_utf8 data = Some text)
                      /\ List.length data = BUFFER_SIZE) fulls ->
  exists texts,
    forall pipe chunks,
      read_chunks (map ReadGives fulls ++ pipe) chunks
      = read_chunks pipe (chunks ++ texts).
Proof.
  induction 1 as [|data fulls [[text Htext] Hlen] _ [texts IH]].
  - exists []. intros pipe chunks. now rewrite app_nil_r.
  - exists (firstn (List.length data) (text ++ repeat 0%N 0) :: texts).
    intros pipe chunks. cbn [map app].
    rewrite read_chunks_unfold, Hlen, Nat.sub_diag, <- Hlen.
    rewrite (chunk_of_utf8 data text 0 Htext).
    rewrite Hlen, Nat.ltb_irrefl, IH, <- app_assoc. reflexivity.
Qed.

(** X8. A read that ends inside a multi-byte character, as a full buffer
    does when a character of a long message straddles byte 4096, cannot
    be decoded. Whatever whole buffers of text came before it in the same
    message, when the bytes of a read are valid UTF-8 followed by the lead
    byte of a character and fewer bytes than the character takes,
    [read_command] logs the exception and returns [None], the text read so
    far is dropped, and what follows in the pipe (the tail of the message)
    is left to be read as the next command. *)
Theorem character_cut_by_the_buffer
        (st : state) (fulls : list (list byte)) (head cut : list byte)
        (text : pystr) (rest : list read_event) :
  Forall (fun data => (exists text, decode_utf8 data = Some text)
                      /\ List.length data = BUFFER_SIZE) fulls ->
  decode_utf8 head = Some text ->
  is_cut cut = true ->
  List.length (head ++ cut) <= BUFFER_SIZE ->
  pipe_in st = map ReadGives fulls ++ ReadGives (head ++ cut) :: rest ->
  read_command st
  = Some (PNone,
          logging ERROR (lit "Exception in read_command(): ")
            (Some UnicodeDecodeError) (set_pipe_in rest st)).
Proof.
  intros Hfulls Hhead Hcut Hlen Hpipe.
  destruct (read_chunks_fulls fulls Hfulls) as [texts Hread].
  unfold read_command. rewrite Hpipe, Hread, read_chunks_unfold.
  rewrite <- app_assoc, (decode_utf8_app head _ _ Hhead).
  now rewrite decode_utf8_is_cut.
Qed.

(** ** The configuration file written and read back *)

Lemma dict_set_fresh (acc : list (pystr * pyval)) (k : pystr) (v : pyval) :
  existsb (fun a => pystr_eqb (fst a) k) acc = false ->
  dict_set acc k v = acc ++ [(k, v)].
Proof.
  induction acc as [|[k' v'] acc IH]; [reflexivity|].
  cbn [existsb fst dict_set app]. intros H.
  apply orb_false_iff in H as [Hk Hacc]. now rewrite Hk, IH.
Qed.

(** One member whose value is a string, read by [parse_members]. *)
Lemma parse_members_string (fuel : nat) (acc : list (pystr * pyval))
      (k v r3 : pystr) :
  text_ok k = true ->
  text_ok v = true ->
  parse_members (S (S fuel)) acc
    (encode_basestring_ascii k ++ lit ": " ++ encode_basestring_ascii v ++ r3)
  = match skip_ws r3 with
    | c :: r4 =>
        if (c =? 125)%N then Some (PDict (dict_set acc k (PStr v)), r4)
        else if (c =? 44)%N
             then parse_members (S fuel) (dict_set acc k (PStr v)) (skip_ws r4)
             else None
    | [] => None
    end.
Proof.
  intros Hk Hv. unfold encode_basestring_ascii.
  replace ((QUOTE :: flat_map escape_char k ++ [QUOTE]) ++ lit ": "
             ++ (QUOTE :: flat_map escape_char v ++ [QUOTE]) ++ r3)
    with (QUOTE :: flat_map escape_char k
            ++ QUOTE :: 58%N :: 32%N :: QUOTE :: flat_map escape_char v
            ++ QUOTE :: r3)
    by (cbn [app lit map list_ascii_of_string]; rewrite <- !app_assoc;
        reflexivity).
  cbn [parse_members].
  change (QUOTE =? QUOTE)%N with true. cbv iota.
  rewrite (scanstring_escaped k _ Hk).
  change (skip_ws (58%N :: 32%N :: QUOTE :: flat_map escape_char v
                     ++ QUOTE :: r3))
    with (58%N :: 32%N :: QUOTE :: flat_map escape_char v ++ QUOTE :: r3).
  change (58 =? 58)%N with true. cbv iota.
  change (skip_ws (32%N :: QUOTE :: flat_map escape_char v ++ QUOTE :: r3))
    with (QUOTE :: flat_map escape_char v ++ QUOTE :: r3).
  cbn [scan_once].
  change (QUOTE =? QUOTE)%N with true. cbv iota.
  rewrite (scanstring_escaped v _ Hv).
  reflexivity.
Qed.

Lemma existsb_false_In (A : Type) (f : A -> bool) (l : list A) :
  existsb f l = false -> forall x, In x l -> f x = false.
Proof.
  intros H x Hin. destruct (f x) eqn:E; [|reflexivity].
  rewrite <- H. symmetry. apply existsb_exists. eauto.
Qed.

Lemma pystr_eqb_sym (s t : pystr) : pystr_eqb s t = pystr_eqb t s.
Proof.
  destruct (pystr_eqb s t) eqn:E.
  - apply pystr_eqb_eq in E. subst. symmetry. apply pystr_eqb_refl.
  - destruct (pystr_eqb t s) eqn:E'; [|reflexivity].
    apply pystr_eqb_eq in E'. subst. now rewrite pystr_eqb_refl in E.
Qed.

Lemma json_dumps_indent_dict (indent level : nat) (m : pystr * pyval)
      (ms : list (pystr * pyval)) :
  json_dumps_indent indent level (PDict (m :: ms))
  = lit "{" ++ newline_indent indent (S level)
      ++ join (lit "," ++ newline_indent indent (S level))
           (map (member_text indent (S level)) (m :: ms))
      ++ newline_indent indent level ++ lit "}".
Proof. reflexivity. Qed.

Lemma join_members_head (sep : pystr) (m : pystr * pyval)
      (ms : list (pystr * pyval)) :
  exists t, join sep (map (member_text 4 1) (m :: ms)) = QUOTE :: t.
Proof.
  destruct m as [k x]. destruct ms as [|m2 ms]; cbn; eauto.
Qed.

Lemma config_ok_cons (k : pystr) (x : pyval) (ms : list (pystr * pyval)) :
  config_ok ((k, x) :: ms) = true ->
  exists v,
    x = PStr v /\ text_ok k = true /\ text_ok v = true
    /\ existsb (fun kv => pystr_eqb (fst kv) k) ms = false
    /\ config_ok ms = true.
Proof.
  cbn [config_ok]. intros H.
  apply andb_true_iff in H as [H H4]. apply andb_true_iff in H as [H H3].
  apply andb_true_iff in H as [H1 H2]. apply negb_true_iff in H3.
  destruct x; try discriminate. eauto 6.
Qed.

(** The members of a configuration, read back one by one. *)
Lemma parse_members_config (ms : list (pystr * pyval)) :
  forall (acc : list (pystr * pyval)) (fuel : nat) (rest : pystr),
    ms <> [] ->
    config_ok ms = true ->
    (forall kv, In kv ms ->
                existsb (fun a => pystr_eqb (fst a) (fst kv)) acc = false) ->
    List.length ms < fuel ->
    parse_members fuel acc
      (join (lit "," ++ newline_indent 4 1) (map (member_text 4 1) ms)
         ++ newline_indent 4 0 ++ lit "}" ++ rest)
    = Some (PDict (acc ++ ms), rest).
Proof.
  induction ms as [|[k x] ms IH]; intros acc fuel rest Hne Hok Hfresh Hfuel;
    [congruence|].
  apply config_ok_cons in Hok as (v & -> & Hk & Hv & Hlater & Hok).
  destruct fuel as [|[|fuel]]; cbn [List.length] in Hfuel; try lia.
  assert (Hset : dict_set acc k (PStr v) = acc ++ [(k, PStr v)]).
  { apply dict_set_fresh. apply (Hfresh (k, PStr v)). now left. }
  destruct ms as [|m2 ms].
  - cbn [map join member_text json_dumps_indent]. rewrite <- !app_assoc.
    rewrite parse_members_string by assumption.
    cbn [newline_indent repeat Nat.mul app lit map list_ascii_of_string].
    now rewrite Hset.
  - assert (Hjoin : join (lit "," ++ newline_indent 4 1)
                      (map (member_text 4 1) ((k, PStr v) :: m2 :: ms))
                    = member_text 4 1 (k, PStr v)
                        ++ (lit "," ++ newline_indent 4 1)
                        ++ join (lit "," ++ newline_indent 4 1)
                             (map (member_text 4 1) (m2 :: ms)))
      by reflexivity.
    rewrite Hjoin. cbn [member_text json_dumps_indent].
    rewrite <- !app_assoc.
    rewrite parse_members_string by assumption.
    destruct (join_members_head (lit "," ++ newline_indent 4 1) m2 ms)
      as [t Ht].
    assert (Hskip :
              skip_ws (lit "," ++ newline_indent 4 1
                         ++ join (lit "," ++ newline_indent 4 1)
                              (map (member_text 4 1) (m2 :: ms))
                         ++ newline_indent 4 0 ++ lit "}" ++ rest)
              = 44%N :: newline_indent 4 1
                  ++ join (lit "," ++ newline_indent 4 1)
                       (map (member_text 4 1) (m2 :: ms))
                  ++ newline_indent 4 0 ++ lit "}" ++ rest)
      by reflexivity.
    rewrite Hskip.
    change (44 =? 125)%N with false. change (44 =? 44)%N with true.
    cbv iota.
    assert (Hskip2 :
              skip_ws (newline_indent 4 1
                         ++ join (lit "," ++ newline_indent 4 1)
                              (map (member_text 4 1) (m2 :: ms))
                         ++ newline_indent 4 0 ++ lit "}" ++ rest)
              = join (lit "," ++ newline_indent 4 1)
                  (map (member_text 4 1) (m2 :: ms))
                  ++ newline_indent 4 0 ++ lit "}" ++ rest).
    { rewrite Ht. reflexivity. }
    rewrite Hskip2, Hset.
    rewrite IH.
    + now rewrite <- app_assoc.
    + discriminate.
    + exact Hok.
    + intros kv Hin. rewrite existsb_app. cbn [existsb fst].
      rewrite (Hfresh kv (or_intror Hin)), orb_false_r. cbn [orb].
      rewrite pystr_eqb_sym.
      exact (existsb_false_In _ _ _ Hlater kv Hin).
    + cbn [List.length] in *. lia.
Qed.

Lemma join_members_length (sep : pystr) (ms : list (pystr * pyval)) :
  List.length ms <= List.length (join sep (map (member_text 4 1) ms)).
Proof.
  induction ms as [|[k x] ms IH]; [cbn; lia|].
  destruct ms as [|m2 ms].
  - cbn. lia.
  - change (join sep (map (member_text 4 1) ((k, x) :: m2 :: ms)))
      with (member_text 4 1 (k, x) ++ sep
              ++ join sep (map (member_text 4 1) (m2 :: ms))).
    rewrite !length_app. cbn [member_text encode_basestring_ascii List.length app].
    cbn [List.length] in IH. lia.
Qed.

(** [json.loads] of the text [json.dump(..., indent=4)] writes for a
    configuration gives the configuration back. *)
Lemma json_loads_indented_config (cfg : list (pystr * pyval)) :
  config_ok cfg = true ->
  json_loads_ref (json_dumps_indent 4 0 (PDict cfg)) = Ok (PDict cfg).
Proof.
  intros Hok. destruct cfg as [|m ms]; [reflexivity|].
  rewrite json_dumps_indent_dict. unfold json_loads_ref.
  pose proof (join_members_length (lit "," ++ newline_indent 4 1) (m :: ms))
    as Hlen.
  assert (Hparse : forall fuel,
             List.length (m :: ms) < fuel ->
             parse_members fuel []
               (join (lit "," ++ newline_indent 4 1)
                  (map (member_text 4 1) (m :: ms))
                  ++ newline_indent 4 0 ++ lit "}")
             = Some (PDict (m :: ms), [])).
  { intros fuel Hfuel.
    pose proof (parse_members_config (m :: ms) [] fuel []
                  ltac:(discriminate) Hok ltac:(reflexivity) Hfuel) as H.
    now rewrite app_nil_r in H. }
  destruct (join_members_head (lit "," ++ newline_indent 4 1) m ms)
    as [t Ht].
  set (body := join (lit "," ++ newline_indent 4 1)
                 (map (member_text 4 1) (m :: ms))) in *.
  set (tail := newline_indent 4 0 ++ lit "}") in *.
  change (lit "{" ++ newline_indent 4 1 ++ body ++ tail)
    with (123%N :: 10%N :: 32%N :: 32%N :: 32%N :: 32%N :: body ++ tail).
  assert (Hskip : skip_ws (10%N :: 32%N :: 32%N :: 32%N :: 32%N :: body ++ tail)
                  = body ++ tail).
  { rewrite Ht. reflexivity. }
  cbn [skip_ws]. change (is_ws 123) with false. cbv iota.
  cbn [scan_once].
  change (123 =? QUOTE)%N with false. change (123 =? 123)%N with true.
  cbv iota. rewrite Hskip.
  assert (Hshape : body ++ tail = QUOTE :: (t ++ tail))
    by (rewrite Ht; reflexivity).
  rewrite Hshape.
  change (QUOTE =? 125)%N with false. cbv iota.
  rewrite <- Hshape, Hparse; [reflexivity|].
  cbn [List.length] in *. rewrite length_app. lia.
Qed.

(** ** Faults in the middle of a command, and a pipe that only fails *)

Lemma for_tool_calls_app (a b : list pyval) (st : state) :
  for_tool_calls (a ++ b) st
  = match for_tool_calls a st with
    | Continue st' => for_tool_calls b st'
    | Return st' => Return st'
    | Raise e st' => Raise e st'
    end.
Proof.
  revert st. induction a as [|tc a IH]; intros st; [reflexivity|].
  cbn [app for_tool_calls].
  destruct (for_body tc st) as [st1|st1|e st1]; [apply IH| |]; reflexivity.
Qed.

(** X10. Results are streamed, not batched: when an entry of a command is
    not a map, the invocations before it have been answered, one frame
    each and in order, before the exception leaves [main]; these frames
    stay on the pipe and the entries after the faulty one are never
    served. *)
Theorem frames_before_a_fault_stay
        (before after : list pyval) (bad : pyval) (st : state) :
  forallb is_invocation before = true ->
  existsb is_shutdown before = false ->
  (forall prompt w e, fst (screen_query prompt w) <> QueryRaises e) ->
  (forall d, bad <> PDict d) ->
  exists st',
    for_tool_calls (before ++ bad :: after) st = Raise AttributeError st'
    /\ pipe_out st' = pipe_out st ++ map frame (results before (world st))
    /\ List.length (results before (world st)) = List.length before.
Proof.
  intros Hinv Hnoshut Hq Hbad.
  destruct (for_tool_calls_invocations before st Hinv Hq)
    as (st' & Hfor & Hout & Hlen).
  rewrite Hnoshut in Hfor.
  rewrite (processed_no_shutdown before Hnoshut) in Hout, Hlen.
  exists st'. rewrite for_tool_calls_app, Hfor.
  cbn [for_tool_calls]. rewrite (for_body_not_dict bad st' Hbad).
  split; [reflexivity|]. split; [exact Hout|exact Hlen].
Qed.

(** X11. A pipe on which every [ReadFile] fails, as when the host has
    closed it, does not end the plugin: each failure is logged twice, by
    [read_command] and by [main], nothing is written and nothing changes
    in the world, and after the last failure [main] is still in its loop,
    waiting for the next read. *)
Theorem failing_pipe_only_logs (n : nat) (st : state) :
  pipe_in st = repeat ReadFails n ->
  exists st',
    main_loop (S n) st = (RUNNING, st')
    /\ pipe_out st' = pipe_out st
    /\ world st' = world st
    /\ log_file st'
       = log_file st
           ++ List.concat
                (repeat [mkLog ERROR (lit "Error reading from command pipe") None;
                         mkLog ERROR (lit "Error reading command") None] n).
Proof.
  revert st. induction n as [|n IH]; intros st Hpipe.
  - exists (set_pipe_in [] st). rewrite main_loop_waits by exact Hpipe.
    cbn. now rewrite app_nil_r.
  - set (st1 := logging ERROR (lit "Error reading command") None
                  (logging ERROR (lit "Error reading from command pipe") None
                     (set_pipe_in (repeat ReadFails n) st))).
    assert (Hstep : main_loop (S (S n)) st = main_loop (S n) st1).
    { rewrite main_loop_step. unfold read_command. rewrite Hpipe.
      reflexivity. }
    destruct (IH st1 eq_refl) as (st' & Hrun & Hout & Hworld & Hlog).
    exists st'. rewrite Hstep.
    split; [exact Hrun|]. split; [exact Hout|]. split; [exact Hworld|].
    rewrite Hlog. cbn [repeat List.concat log_file logging st1 set_pipe_in].
    unfold st1. cbn [log_file logging set_pipe_in].
    now rewrite <- !app_assoc.
Qed.
End Plugin.

(** * Runs of the model

    The parameters of the plugin are filled with the reference decoder and
    the fixed world; the runs start with an empty output pipe and an empty
    log. *)

(** The scenarios of the specification, on the code: the frames carry the
    spaces of the default separators. *)
Example scenario_initialize :
  main fixed_float_repr fixed_screen_query json_loads_ref
    (mkState
       [ReadGives
          (ascii_bytes (dq "{'tool_calls':[{'func':'initialize','params':{}}]}"))]
       [] [] tt)
  = (RUNNING,
     mkState []
       [ascii_bytes
          (dq "{'success': true, 'message': 'Plugin initialized successfully'}<<END>>")]
       [mkLog INFO (lit "Visual Plugin Started") None;
        mkLog INFO
          (lit "Raw Input: "
             ++ dq "{'tool_calls':[{'func':'initialize','params':{}}]}") None;
        mkLog INFO (lit "Initializing plugin") None]
       tt).
Proof. vm_compute. reflexivity. Qed.

Example scenario_shutdown :
  main fixed_float_repr fixed_screen_query json_loads_ref
    (mkState
       [ReadGives
          (ascii_bytes (dq "{'tool_calls':[{'func':'shutdown','params':{}}]}"));
        ReadGives
          (ascii_bytes (dq "{'tool_calls':[{'func':'initialize','params':{}}]}"))]
       [] [] tt)
  = (STOPPED,
     mkState
       [ReadGives
          (ascii_bytes (dq "{'tool_calls':[{'func':'initialize','params':{}}]}"))]
       [ascii_bytes
          (dq "{'success': true, 'message': 'Plugin shutdown successfully'}<<END>>")]
       [mkLog INFO (lit "Visual Plugin Started") None;
        mkLog INFO
          (lit "Raw Input: "
             ++ dq "{'tool_calls':[{'func':'shutdown','params':{}}]}") None;
        mkLog INFO (lit "Shutting down plugin") None]
       tt).
Proof. vm_compute. reflexivity. Qed.

Example scenario_bogus :
  pipe_out
    (snd (main fixed_float_repr fixed_screen_query json_loads_ref
            (mkState
               [ReadGives
                  (ascii_bytes (dq "{'tool_calls':[{'func':'bogus','params':{}}]}"))]
               [] [] tt)))
  = [ascii_bytes
       (dq "{'success': false, 'message': 'Unknown function call'}<<END>>")].
Proof. vm_compute. reflexivity. Qed.

(** A message of exactly one buffer is not served before a further,
    shorter read comes: the loop waits with nothing written; with the
    empty read behind it the command is served. *)
Example full_buffer_waits :
  main fixed_float_repr fixed_screen_query json_loads_ref
    (mkState
       [ReadGives
          (ascii_bytes
             (dq "{'tool_calls':[{'func':'initialize'}]}" ++ repeat 32%N 4058))]
       [] [] tt)
  = (RUNNING, mkState [] [] [mkLog INFO (lit "Visual Plugin Started") None] tt)
  /\ pipe_out
       (snd (main fixed_float_repr fixed_screen_query json_loads_ref
               (mkState
                  [ReadGives
                     (ascii_bytes
                        (dq "{'tool_calls':[{'func':'initialize'}]}"
                           ++ repeat 32%N 4058));
                   ReadGives []]
                  [] [] tt)))
     = [frame fixed_float_repr initialized_result].
Proof. split; vm_compute; reflexivity. Qed.

(** A command of two invocations is answered by two frames, in order. *)
Lemma one_frame_per_invocation_run :
  read_command json_loads_ref
    (mkState [ReadGives (ascii_bytes two_calls_text)] [] [] tt)
  = Some (PDict [(lit "tool_calls", PList two_calls)],
          mkState [] []
            [mkLog INFO (lit "Raw Input: " ++ two_calls_text) None] tt)
  /\ dict_lookup [(lit "tool_calls", PList two_calls)] (lit "tool_calls")
     = Some (PList two_calls)
  /\ forallb is_invocation two_calls = true
  /\ (forall prompt w e, fst (fixed_screen_query prompt w) <> QueryRaises e)
  /\ exists st',
      pipe_out st'
      = [frame fixed_float_repr
           (Result true (Some (lit "Plugin initialized successfully")));
         frame fixed_float_repr
           (Result false (Some (lit "Unknown function call")))]
      /\ main_loop fixed_float_repr fixed_screen_query json_loads_ref 2
           (mkState [ReadGives (ascii_bytes two_calls_text)] [] [] tt)
         = main_loop fixed_float_repr fixed_screen_query json_loads_ref 1 st'.
Proof.
  assert (H1 : read_command json_loads_ref
                 (mkState [ReadGives (ascii_bytes two_calls_text)] [] [] tt)
               = Some (PDict [(lit "tool_calls", PList two_calls)],
                       mkState [] []
                         [mkLog INFO (lit "Raw Input: " ++ two_calls_text) None]
                         tt))
    by (vm_compute; reflexivity).
  assert (H2 : dict_lookup [(lit "tool_calls", PList two_calls)]
                 (lit "tool_calls") = Some (PList two_calls))
    by reflexivity.
  assert (H3 : forallb is_invocation two_calls = true) by reflexivity.
  assert (H4 : forall prompt (w : unit) e,
             fst (fixed_screen_query prompt w) <> QueryRaises e)
    by (intros prompt w e; discriminate).
  split; [exact H1|]. split; [exact H2|]. split; [exact H3|].
  split; [exact H4|].
  destruct (one_frame_per_invocation fixed_float_repr fixed_screen_query
              json_loads_ref 1 _ _ _ _ H1 H2 H3 H4)
    as (st' & Hout & _ & Hgo & _).
  exists st'. split.
  - exact Hout.
  - apply Hgo. reflexivity.
Defined.

(** A valid command that asks for the screen, and a service whose reply
    has no [output]: no frame, and the process dies of the [KeyError]. *)
Lemma handler_fault_drops_the_frames_run :
  read_command json_loads_ref
    (mkState [ReadGives (ascii_bytes prompt_call_text)] [] [] tt)
  = Some (PDict [(lit "tool_calls", PList [PDict prompt_call])],
          mkState [] []
            [mkLog INFO (lit "Raw Input: " ++ prompt_call_text) None] tt)
  /\ forallb is_invocation [PDict prompt_call] = true
  /\ failing_screen_query (PStr (lit "hi")) tt = (QueryRaises KeyError, tt)
  /\ main fixed_float_repr failing_screen_query json_loads_ref
       (mkState [ReadGives (ascii_bytes prompt_call_text)] [] [] tt)
     = (CRASHED KeyError,
        mkState [] []
          [mkLog INFO (lit "Visual Plugin Started") None;
           mkLog INFO (lit "Raw Input: " ++ prompt_call_text) None] tt)
  /\ main_loop fixed_float_repr failing_screen_query json_loads_ref 1
       (mkState [ReadGives (ascii_bytes prompt_call_text)] [] [] tt)
     = (CRASHED KeyError,
        mkState [] []
          [mkLog INFO (lit "Raw Input: " ++ prompt_call_text) None] tt).
Proof.
  assert (H1 : read_command json_loads_ref
                 (mkState [ReadGives (ascii_bytes prompt_call_text)] [] [] tt)
               = Some (PDict [(lit "tool_calls", PList [PDict prompt_call])],
                       mkState [] []
                         [mkLog INFO (lit "Raw Input: " ++ prompt_call_text)
                            None] tt))
    by (vm_compute; reflexivity).
  assert (H2 : forallb is_invocation [PDict prompt_call] = true)
    by reflexivity.
  assert (H3 : failing_screen_query (PStr (lit "hi")) tt
               = (QueryRaises KeyError, tt)) by reflexivity.
  split; [exact H1|]. split; [exact H2|]. split; [exact H3|].
  split; [vm_compute; reflexivity|].
  apply (handler_fault_drops_the_frames fixed_float_repr failing_screen_query
           json_loads_ref 0 _ _ _ prompt_call [] (PStr (lit "hi")) KeyError tt
           H1 eq_refl H2 eq_refl eq_refl eq_refl H3).
Defined.

(** The two bytes of an empty JSON array kill the process. *)
Lemma faults_leave_main_run :
  read_command json_loads_ref
    (mkState [ReadGives (ascii_bytes (lit "[]"))] [] [] tt)
  = Some (PList [],
          mkState [] [] [mkLog INFO (lit "Raw Input: []") None] tt)
  /\ main_loop fixed_float_repr fixed_screen_query json_loads_ref 1
       (mkState [ReadGives (ascii_bytes (lit "[]"))] [] [] tt)
     = (CRASHED AttributeError,
        mkState [] [] [mkLog INFO (lit "Raw Input: []") None] tt).
Proof.
  assert (H : read_command json_loads_ref
                (mkState [ReadGives (ascii_bytes (lit "[]"))] [] [] tt)
              = Some (PList [],
                      mkState [] [] [mkLog INFO (lit "Raw Input: []") None] tt))
    by (vm_compute; reflexivity).
  split; [exact H|].
  apply (faults_leave_main fixed_float_repr fixed_screen_query
           json_loads_ref 0 _ _ (PList []) H); discriminate.
Defined.

(** A shutdown in a command: the frame is written, the loop stops. *)
Lemma lifecycle_signals_run :
  exists st' frames,
    main_loop fixed_float_repr fixed_screen_query json_loads_ref 1
      (mkState
         [ReadGives (ascii_bytes (dq "{'tool_calls':[{'func':'shutdown'}]}"))]
         [] [] tt)
    = (STOPPED, st')
    /\ pipe_out st'
       = frames
           ++ [frame fixed_float_repr
                 (Result true (Some (lit "Plugin shutdown successfully")))].
Proof.
  destruct (main_loop fixed_float_repr fixed_screen_query json_loads_ref 1
              (mkState
                 [ReadGives
                    (ascii_bytes (dq "{'tool_calls':[{'func':'shutdown'}]}"))]
                 [] [] tt))
    as [exit st'] eqn:E.
  assert (Hexit : exit = STOPPED)
    by (apply (f_equal fst) in E; vm_compute in E; now symmetry).
  subst exit.
  destruct (lifecycle_signals fixed_float_repr fixed_screen_query
              json_loads_ref) as (_ & _ & _ & _ & Hstop).
  destruct (Hstop 1 _ st' E) as [frames Hframes].
  exists st', frames. split; [reflexivity|exact Hframes].
Defined.

(** An unknown name gets the routing error. *)
Lemma unknown_function_call_run :
  func_of bogus_call <> PStr (lit "initialize")
  /\ func_of bogus_call <> PStr (lit "describe_screen")
  /\ func_of bogus_call <> PStr (lit "shutdown")
  /\ forallb is_invocation two_calls = true
  /\ (forall prompt w e, fst (fixed_screen_query prompt w) <> QueryRaises e)
  /\ for_tool_calls fixed_float_repr fixed_screen_query [PDict bogus_call]
       (mkState [] [] [] tt)
     = Continue (mkState [] [frame fixed_float_repr unknown_result] [] tt)
  /\ exists st',
      for_tool_calls fixed_float_repr fixed_screen_query
        (PDict bogus_call :: two_calls) (mkState [] [] [] tt)
      = Continue st'
      /\ pipe_out st'
         = [frame fixed_float_repr unknown_result;
            frame fixed_float_repr initialized_result;
            frame fixed_float_repr unknown_result].
Proof.
  assert (H1 : func_of bogus_call <> PStr (lit "initialize")) by discriminate.
  assert (H2 : func_of bogus_call <> PStr (lit "describe_screen"))
    by discriminate.
  assert (H3 : func_of bogus_call <> PStr (lit "shutdown")) by discriminate.
  assert (H4 : forallb is_invocation two_calls = true) by reflexivity.
  assert (H5 : forall prompt (w : unit) e,
             fst (fixed_screen_query prompt w) <> QueryRaises e)
    by (intros prompt w e; discriminate).
  split; [exact H1|]. split; [exact H2|]. split; [exact H3|].
  split; [exact H4|]. split; [exact H5|].
  destruct (unknown_function_call fixed_float_repr fixed_screen_query
              bogus_call two_calls (mkState [] [] [] tt) H1 H2 H3)
    as (_ & _ & _ & Hone & _ & _ & Hrest).
  split; [exact Hone|].
  destruct (Hrest H4 H5) as (st' & Hfor & Hout & _).
  exists st'. split; [exact Hfor|exact Hout].
Defined.

(** An entry without a name, then a request for the screen, the shutdown
    signal and one more entry: three frames, and the loop returns. *)
Lemma missing_func_is_unknown_run :
  (dict_lookup nameless_call (lit "func") = None
   \/ dict_lookup nameless_call (lit "func") = Some PNone)
  /\ forallb is_invocation
       [PDict prompt_call; PDict shutdown_call; PDict bogus_call] = true
  /\ (forall prompt w e, fst (fixed_screen_query prompt w) <> QueryRaises e)
  /\ for_tool_calls fixed_float_repr fixed_screen_query [PDict nameless_call]
       (mkState [] [] [] tt)
     = Continue (mkState [] [frame fixed_float_repr unknown_result] [] tt)
  /\ exists st',
      for_tool_calls fixed_float_repr fixed_screen_query
        [PDict nameless_call; PDict prompt_call; PDict shutdown_call;
         PDict bogus_call]
        (mkState [] [] [] tt)
      = Return st'
      /\ pipe_out st'
         = [frame fixed_float_repr unknown_result;
            frame fixed_float_repr (Result true (Some (lit "a cat")));
            frame fixed_float_repr shutdown_result].
Proof.
  assert (H : dict_lookup nameless_call (lit "func") = None
              \/ dict_lookup nameless_call (lit "func") = Some PNone)
    by (left; reflexivity).
  assert (H4 : forallb is_invocation
                 [PDict prompt_call; PDict shutdown_call; PDict bogus_call]
               = true) by reflexivity.
  assert (H5 : forall prompt (w : unit) e,
             fst (fixed_screen_query prompt w) <> QueryRaises e)
    by (intros prompt w e; discriminate).
  split; [exact H|]. split; [exact H4|]. split; [exact H5|].
  destruct (missing_func_is_unknown fixed_float_repr fixed_screen_query
              nameless_call
              [PDict prompt_call; PDict shutdown_call; PDict bogus_call]
              (mkState [] [] [] tt) H)
    as (_ & _ & Hone & _ & _ & Hrest).
  split; [exact Hone|].
  destruct (Hrest H4 H5) as (st' & Hfor & Hout & _).
  exists st'. split; [exact Hfor|exact Hout].
Defined.

(** An empty object is a command without invocations; a screen request
    without parameters is told that its prompt is missing. *)
Lemma missing_keys_default_run :
  read_command json_loads_ref
    (mkState [ReadGives (ascii_bytes (lit "{}"))] [] [] tt)
  = Some (PDict [], mkState [] [] [mkLog INFO (lit "Raw Input: {}") None] tt)
  /\ main_loop fixed_float_repr fixed_screen_query json_loads_ref 1
       (mkState [ReadGives (ascii_bytes (lit "{}"))] [] [] tt)
     = main_loop fixed_float_repr fixed_screen_query json_loads_ref 0
         (mkState [] [] [mkLog INFO (lit "Raw Input: {}") None] tt)
  /\ for_body fixed_float_repr fixed_screen_query (PDict screen_call)
       (mkState [] [] [] tt)
     = Continue
         (mkState []
            [frame fixed_float_repr
               (Result false
                  (Some (lit "Missing required parameter: prompt")))]
            [] tt).
Proof.
  assert (H : read_command json_loads_ref
                (mkState [ReadGives (ascii_bytes (lit "{}"))] [] [] tt)
              = Some (PDict [],
                      mkState [] [] [mkLog INFO (lit "Raw Input: {}") None] tt))
    by (vm_compute; reflexivity).
  destruct (missing_keys_default fixed_float_repr fixed_screen_query
              json_loads_ref) as (Hcalls & _ & Hparams).
  destruct (Hcalls 0 _ _ [] H eq_refl) as [_ Hloop].
  destruct (Hparams screen_call (mkState [] [] [] tt) eq_refl eq_refl)
    as [_ Hbody].
  split; [exact H|]. split; [exact Hloop|exact Hbody].
Defined.

(** A text that is not JSON: nothing is written and the loop goes on. *)
Lemma failed_read_is_not_fatal_run :
  (exists chunks,
      read_chunks [ReadGives (ascii_bytes (lit "{oops"))] []
      = (Break chunks, [])
      /\ json_loads_ref (List.concat chunks) = Err JSONDecodeError)
  /\ exists st',
      read_command json_loads_ref
        (mkState [ReadGives (ascii_bytes (lit "{oops"))] [] [] tt)
      = Some (PNone, st')
      /\ pipe_out st' = []
      /\ main_loop fixed_float_repr fixed_screen_query json_loads_ref 1
           (mkState [ReadGives (ascii_bytes (lit "{oops"))] [] [] tt)
         = main_loop fixed_float_repr fixed_screen_query json_loads_ref 0
             (logging ERROR (lit "Error reading command") None st').
Proof.
  assert (H : exists chunks,
             read_chunks [ReadGives (ascii_bytes (lit "{oops"))] []
             = (Break chunks, [])
             /\ json_loads_ref (List.concat chunks) = Err JSONDecodeError).
  { exists [lit "{oops"]. split; vm_compute; reflexivity. }
  split; [exact H|].
  destruct (failed_read_is_not_fatal fixed_float_repr fixed_screen_query
              json_loads_ref 0
              (mkState [ReadGives (ascii_bytes (lit "{oops"))] [] [] tt) []
              (or_intror (or_introl H)))
    as (st' & Hread & Hout & _ & _ & Hloop & _).
  exists st'. split; [exact Hread|]. split; [exact Hout|exact Hloop].
Defined.

(** A message with an accent and an emoji comes back as it was. *)
Lemma result_round_trip_run :
  message_ok emoji_text = true
  /\ decode_frame (frame fixed_float_repr (Result true (Some emoji_text)))
     = Some (Result true (Some emoji_text)).
Proof.
  assert (H : match Some emoji_text with
              | Some m => message_ok m = true
              | None => True
              end) by reflexivity.
  split; [exact H|].
  apply (result_round_trip fixed_float_repr true (Some emoji_text)
           (mkState [] [] [] tt) H).
Defined.

(** C8, as stated, fails in two ways. A message made of a high surrogate
    code point and a low one is written as two escapes, and the text read
    back holds one code point, U+1F600, where the Result held two. A
    message that holds the terminator is written as it is, and the reader
    stops at that first [<<END>>], in the middle of the JSON text. *)
Lemma round_trip_fails_on_pairs_and_markers :
  decode_frame
    (frame fixed_float_repr (generate_response true (PStr split_pair)))
  <> Some (generate_response true (PStr split_pair))
  /\ decode_frame
       (frame fixed_float_repr (generate_response false (PStr marker_text)))
     <> Some (generate_response false (PStr marker_text)).
Proof. split; intros H; vm_compute in H; discriminate H. Qed.

Example surrogate_pair_read_back :
  decode_frame
    (frame fixed_float_repr (generate_response true (PStr split_pair)))
  = Some (Result true (Some [128512%N])).
Proof. vm_compute. reflexivity. Qed.

Example marker_in_message_read_back :
  text_ok marker_text = true
  /\ strip_terminator
       (json_dumps fixed_float_repr (Result false (Some marker_text))
          ++ END_MARKER)
     = Some (dq "{'success': false, 'message': 'a")
  /\ decode_frame
       (frame fixed_float_repr (generate_response false (PStr marker_text)))
     = None.
Proof. repeat split; vm_compute; reflexivity. Qed.

(** * The configuration file *)

(** X9. What [save_config] writes, [load_config] reads back: for a
    configuration that maps strings to strings (no key twice, no high
    surrogate followed by a low one) and a file that can be opened for
    writing, whatever was on the disk before, the file then holds the
    JSON text indented by four spaces and [load_config] returns the
    configuration, without logging anything. *)
Theorem saved_config_is_loaded_back
        (float_repr : spec_float -> pystr) (World : Type)
        (cfg : list (pystr * pyval)) (d : disk)
        (st st' : @state World) :
  writable d = true ->
  config_ok cfg = true ->
  save_config float_repr (PDict cfg) d st
  = (mkDisk (FileText (json_dumps_indent float_repr 4 0 (PDict cfg))) true, st)
  /\ load_config json_loads_ref
       (fst (save_config float_repr (PDict cfg) d st)) st'
     = (PDict cfg, st').
Proof.
  intros Hw Hok.
  assert (Hsave : save_config float_repr (PDict cfg) d st
                  = (mkDisk (FileText (json_dumps_indent float_repr 4 0
                                         (PDict cfg))) true, st)).
  { unfold save_config. now rewrite Hw. }
  split; [exact Hsave|].
  rewrite Hsave. unfold load_config. cbn [fst file].
  now rewrite json_loads_indented_config.
Qed.

(** * Runs for the further properties *)

(** Two invocations served, then the pipe is empty: two Result frames. *)
Lemma written_frames_are_results_run :
  exists exit st' frames,
    main_loop fixed_float_repr fixed_screen_query json_loads_ref 2
      (mkState [ReadGives (ascii_bytes two_calls_text)] [] [] tt)
    = (exit, st')
    /\ pipe_out st' = frames
    /\ List.length frames = 2
    /\ Forall (fun bytes =>
                 result_frame fixed_float_repr bytes
                 /\ Forall (fun b => (32 <= Byte.to_N b <= 126)%N) bytes
                 /\ exists payload, bytes = payload ++ ascii_bytes END_MARKER)
              frames.
Proof.
  destruct (main_loop fixed_float_repr fixed_screen_query json_loads_ref 2
              (mkState [ReadGives (ascii_bytes two_calls_text)] [] [] tt))
    as [exit st'] eqn:E.
  destruct (written_frames_are_results fixed_float_repr fixed_screen_query
              json_loads_ref 2 _ st' exit E) as (frames & Hout & Hall).
  exists exit, st', frames.
  split; [reflexivity|]. split; [exact Hout|]. split; [|exact Hall].
  cbn [pipe_out app] in Hout. rewrite <- Hout.
  apply (f_equal (fun r => List.length (pipe_out (snd r)))) in E.
  cbn [snd] in E. rewrite <- E. vm_compute. reflexivity.
Defined.

(** A message of two lone surrogates is written, escaped. *)
Lemma response_is_always_written_run :
  (PStr split_pair = PNone \/ (exists m, PStr split_pair = PStr m))
  /\ pipe_out
       (write_response fixed_float_repr
          (generate_response true (PStr split_pair))
          (mkState [] [] [] tt))
     = [ascii_bytes
          (dq "{'success': true, 'message': '\ud83d\ude00'}<<END>>")].
Proof.
  assert (H : PStr split_pair = PNone \/ (exists m, PStr split_pair = PStr m))
    by (right; exists split_pair; reflexivity).
  split; [exact H|].
  destruct (response_is_always_written fixed_float_repr true
              (PStr split_pair) (mkState [] [] [] tt) H) as (_ & _ & Hout).
  exact Hout.
Defined.

(** An empty prompt is a missing prompt. *)
Lemma falsy_prompt_is_missing_run :
  func_of empty_prompt_call = PStr (lit "describe_screen")
  /\ params_of empty_prompt_call = PDict empty_prompt_params
  /\ (dict_lookup empty_prompt_params (lit "prompt") = None
      \/ (exists v, dict_lookup empty_prompt_params (lit "prompt") = Some v
                    /\ truthy v = false))
  /\ for_body fixed_float_repr fixed_screen_query (PDict empty_prompt_call)
       (mkState [] [] [] tt)
     = Continue
         (mkState []
            [frame fixed_float_repr
               (Result false
                  (Some (lit "Missing required parameter: prompt")))]
            [] tt).
Proof.
  assert (H1 : func_of empty_prompt_call = PStr (lit "describe_screen"))
    by reflexivity.
  assert (H2 : params_of empty_prompt_call = PDict empty_prompt_params)
    by reflexivity.
  assert (H3 : dict_lookup empty_prompt_params (lit "prompt") = None
               \/ (exists v,
                      dict_lookup empty_prompt_params (lit "prompt") = Some v
                      /\ truthy v = false))
    by (right; exists (PStr []); split; reflexivity).
  split; [exact H1|]. split; [exact H2|]. split; [exact H3|].
  destruct (falsy_prompt_is_missing fixed_float_repr fixed_screen_query
              empty_prompt_call empty_prompt_params (mkState [] [] [] tt)
              H1 H2 H3) as [_ Hbody].
  exact Hbody.
Defined.

(** A message that holds the terminator. *)
Lemma plain_message_is_verbatim_run :
  is_plain (lit "a<<END>>b") = true
  /\ lit "a<<END>>b" <> []
  /\ frame fixed_float_repr (generate_response true (PStr (lit "a<<END>>b")))
     = ascii_bytes (dq "{'success': true, 'message': 'a<<END>>b'}<<END>>").
Proof.
  assert (H1 : is_plain (lit "a<<END>>b") = true) by reflexivity.
  assert (H2 : lit "a<<END>>b" <> []) by discriminate.
  split; [exact H1|]. split; [exact H2|].
  destruct (plain_message_is_verbatim fixed_float_repr true
              (lit "a<<END>>b") H1 H2) as [Hframe _].
  exact Hframe.
Defined.

(** One full buffer, then an empty read: the command of the buffer. *)
Lemma ascii_message_is_read_run :
  Forall (fun data => bytes_ascii data = true
                      /\ List.length data = BUFFER_SIZE) [full_buffer_bytes]
  /\ bytes_ascii [] = true
  /\ 0 < BUFFER_SIZE
  /\ read_command json_loads_ref
       (mkState [ReadGives full_buffer_bytes] [] [] tt) = None
  /\ read_command json_loads_ref
       (mkState [ReadGives full_buffer_bytes; ReadGives []; ReadFails] [] [] tt)
     = Some (PDict [(lit "tool_calls", PList [])],
             mkState [ReadFails] []
               [mkLog INFO
                  (lit "Raw Input: "
                     ++ map Byte.to_N (List.concat [full_buffer_bytes] ++ []))
                  None]
               tt).
Proof.
  assert (H1 : Forall (fun data => bytes_ascii data = true
                                   /\ List.length data = BUFFER_SIZE)
                      [full_buffer_bytes]).
  { constructor; [|constructor]. split; vm_compute; reflexivity. }
  assert (H2 : bytes_ascii [] = true) by reflexivity.
  assert (H3 : 0 < BUFFER_SIZE) by (unfold BUFFER_SIZE; lia).
  split; [exact H1|]. split; [exact H2|]. split; [exact H3|].
  split.
  - destruct (ascii_message_is_read json_loads_ref
                (mkState [ReadGives full_buffer_bytes] [] [] tt)
                [full_buffer_bytes] [] [] H1 H2 H3) as [Hwait _].
    apply Hwait. reflexivity.
  - destruct (ascii_message_is_read json_loads_ref
                (mkState [ReadGives full_buffer_bytes; ReadGives []; ReadFails]
                   [] [] tt)
                [full_buffer_bytes] [] [ReadFails] H1 H2 H3) as [_ Hread].
    apply (Hread eq_refl). vm_compute. reflexivity.
Defined.

(** The message with one two-byte character: one NUL is kept. *)
Lemma chunk_keeps_padding_run :
  decode_utf8 accent_bytes = Some accent_text
  /\ List.length accent_bytes < BUFFER_SIZE
  /\ read_chunks [ReadGives accent_bytes] []
     = (Break [accent_text ++ [0%N]], []).
Proof.
  assert (H1 : decode_utf8 accent_bytes = Some accent_text) by reflexivity.
  assert (H2 : List.length accent_bytes < BUFFER_SIZE)
    by (vm_compute; lia).
  split; [exact H1|]. split; [exact H2|].
  destruct (chunk_keeps_padding accent_bytes accent_text [] [] H1 H2)
    as [Hchunk _].
  exact Hchunk.
Defined.

(** A message of two reads: a full buffer that ends with a whole two-byte
    character, then a read that ends after the first two bytes of a
    three-byte character; the third byte stays in the pipe. *)
Lemma character_cut_by_the_buffer_run :
  Forall (fun data => (exists text, decode_utf8 data = Some text)
                      /\ List.length data = BUFFER_SIZE)
         [repeat "a"%byte 4094 ++ [xc3; xa9]]
  /\ decode_utf8 [x61; xc3; xa9] = Some [97; 233]%N
  /\ is_cut [xe2; x82] = true
  /\ List.length ([x61; xc3; xa9] ++ [xe2; x82]) <= BUFFER_SIZE
  /\ read_command json_loads_ref
       (mkState
          [ReadGives (repeat "a"%byte 4094 ++ [xc3; xa9]);
           ReadGives ([x61; xc3; xa9] ++ [xe2; x82]);
           ReadGives [xac]]
          [] [] tt)
     = Some (PNone,
             mkState [ReadGives [xac]] []
               [mkLog ERROR (lit "Exception in read_command(): ")
                  (Some UnicodeDecodeError)]
               tt).
Proof.
  assert (H1 : Forall (fun data => (exists text, decode_utf8 data = Some text)
                                   /\ List.length data = BUFFER_SIZE)
                 [repeat "a"%byte 4094 ++ [xc3; xa9]]).
  { constructor; [|constructor]. split.
    - eexists. vm_compute. reflexivity.
    - vm_compute. reflexivity. }
  assert (H2 : decode_utf8 [x61; xc3; xa9] = Some [97; 233]%N)
    by (vm_compute; reflexivity).
  assert (H3 : is_cut [xe2; x82] = true) by (vm_compute; reflexivity).
  assert (H4 : List.length ([x61; xc3; xa9] ++ [xe2; x82]) <= BUFFER_SIZE)
    by (unfold BUFFER_SIZE; simpl; lia).
  split; [exact H1|]. split; [exact H2|]. split; [exact H3|].
  split; [exact H4|].
  apply (character_cut_by_the_buffer json_loads_ref
           (mkState
              [ReadGives (repeat "a"%byte 4094 ++ [xc3; xa9]);
               ReadGives ([x61; xc3; xa9] ++ [xe2; x82]);
               ReadGives [xac]]
              [] [] tt)
           [repeat "a"%byte 4094 ++ [xc3; xa9]] [x61; xc3; xa9] [xe2; x82]
           [97; 233]%N [ReadGives [xac]] H1 H2 H3 H4 eq_refl).
Defined.

(** A configuration saved over a missing file and loaded. *)
Lemma saved_config_is_loaded_back_run :
  writable (mkDisk NoFile true) = true
  /\ config_ok key_config = true
  /\ load_config json_loads_ref
       (fst (save_config fixed_float_repr (PDict key_config)
               (mkDisk NoFile true) (mkState [] [] [] tt)))
       (mkState [] [] [] tt)
     = (PDict key_config, mkState [] [] [] tt).
Proof.
  assert (H1 : writable (mkDisk NoFile true) = true) by reflexivity.
  assert (H2 : config_ok key_config = true) by reflexivity.
  split; [exact H1|]. split; [exact H2|].
  destruct (saved_config_is_loaded_back fixed_float_repr unit key_config
              (mkDisk NoFile true) (mkState [] [] [] tt)
              (mkState [] [] [] tt) H1 H2) as [_ Hload].
  exact Hload.
Defined.

(** The text [save_config] writes for that configuration. *)
Example saved_config_text :
  json_dumps_indent fixed_float_repr 4 0 (PDict key_config)
  = dq "{" ++ [10%N]
      ++ dq "    'REPLICATE_KEY': 'r8_key'," ++ [10%N]
      ++ dq "    'note': 'caf\u00e9 \ud83d\ude00'" ++ [10%N]
      ++ dq "}".
Proof. vm_compute. reflexivity. Qed.

(** Two invocations, then an entry that is a number. *)
Lemma frames_before_a_fault_stay_run :
  forallb is_invocation two_calls = true
  /\ existsb is_shutdown two_calls = false
  /\ (forall prompt w e, fst (fixed_screen_query prompt w) <> QueryRaises e)
  /\ (forall d, PInt 1 <> PDict d)
  /\ exists st',
      for_tool_calls fixed_float_repr fixed_screen_query
        (two_calls ++ PInt 1 :: [PDict bogus_call]) (mkState [] [] [] tt)
      = Raise AttributeError st'
      /\ pipe_out st'
         = [frame fixed_float_repr initialized_result;
            frame fixed_float_repr unknown_result].
Proof.
  assert (H1 : forallb is_invocation two_calls = true) by reflexivity.
  assert (H2 : existsb is_shutdown two_calls = false) by reflexivity.
  assert (H3 : forall prompt (w : unit) e,
             fst (fixed_screen_query prompt w) <> QueryRaises e)
    by (intros prompt w e; discriminate).
  assert (H4 : forall d, PInt 1 <> PDict d) by discriminate.
  split; [exact H1|]. split; [exact H2|]. split; [exact H3|].
  split; [exact H4|].
  destruct (frames_before_a_fault_stay fixed_float_repr fixed_screen_query
              two_calls [PDict bogus_call] (PInt 1) (mkState [] [] [] tt)
              H1 H2 H3 H4) as (st' & Hfor & Hout & _).
  exists st'. split; [exact Hfor|exact Hout].
Defined.

(** Three failed reads: six log records, and the loop is still there. *)
Lemma failing_pipe_only_logs_run :
  pipe_in (mkState [ReadFails; ReadFails; ReadFails] [] [] tt)
  = repeat ReadFails 3
  /\ exists st',
      main_loop fixed_float_repr fixed_screen_query json_loads_ref 4
        (mkState [ReadFails; ReadFails; ReadFails] [] [] tt)
      = (RUNNING, st')
      /\ pipe_out st' = []
      /\ List.length (log_file st') = 6.
Proof.
  assert (H : pipe_in (mkState [ReadFails; ReadFails; ReadFails] [] [] tt)
              = repeat ReadFails 3) by reflexivity.
  split; [exact H|].
  destruct (failing_pipe_only_logs fixed_float_repr fixed_screen_query
              json_loads_ref 3
              (mkState [ReadFails; ReadFails; ReadFails] [] [] tt) H)
    as (st' & Hrun & Hout & _ & Hlog).
  exists st'. split; [exact Hrun|]. split; [exact Hout|].
  rewrite Hlog. reflexivity.
Defined.
